(** * MMM-Tube-Times: the node helper (node_helper.js), embedded and verified

    The helper serves two requests of the display front end.  Each one
    performs an HTTP GET through axios and answers with one socket
    notification:

    - [getTubeStatusData] forwards the arrivals array of the response;
    - [getTubeLineStatusData] takes the first line of the response,
      standardizes and deduplicates its disruption messages and grades
      the line as "good", "warning" or "severe".

    The embedding follows the JSDoc typedefs of the file.  The HTTP
    client is outside the file: how a request settles (fulfilled with a
    body, or rejected with an error) is an input of the model. *)

From Stdlib Require Import ZArith List String Bool Lia.
From Stdlib Require Import Permutation.
Import ListNotations.

Local Open Scope string_scope.
Local Open Scope list_scope.
Local Open Scope Z_scope.

(** ** JavaScript values that may be missing *)

(** A property that holds a string when it is there.  [None] stands for
    a property that is absent (undefined) or null: the code reads such
    properties only through [||], [&&] and [filter], which treat the two
    alike. *)
Definition JsString := option string.

(** ToBoolean of a string-or-missing value: undefined, null and the
    empty string are falsy. *)
Definition truthy (v : JsString) : bool :=
  match v with
  | Some s => negb (s =? "")%string
  | None => false
  end.

(** [a || b] where [a] may be missing. *)
Definition js_or (a b : JsString) : JsString :=
  if truthy a then a else b.

(** [a || []] for an array that may be missing (arrays are truthy). *)
Definition or_empty {A : Type} (a : option (list A)) : list A :=
  match a with
  | Some l => l
  | None => []
  end.

(** [o?.p]: undefined when [o] is null or undefined. *)
Definition opt_chain {A : Type} (o : option A) (p : A -> JsString) : JsString :=
  match o with
  | Some a => p a
  | None => None
  end.

(** Strict equality of two string-or-missing values (also the
    SameValueZero comparison of Map keys on them). *)
Definition JsString_eqb (a b : JsString) : bool :=
  match a, b with
  | Some s, Some t => (s =? t)%string
  | None, None => true
  | _, _ => false
  end.

(** [Array.prototype.includes] on numbers. *)
Definition includes (l : list Z) (x : Z) : bool :=
  existsb (fun y => y =? x) l.

(** ** The typedefs *)

(** typedef TubeStatus: "good" | "severe" | "warning". *)
Inductive TubeStatus : Type :=
| good
| severe
| warning.

(** The string each status is in the source. *)
Definition TubeStatus_string (s : TubeStatus) : string :=
  match s with
  | good => "good"
  | severe => "severe"
  | warning => "warning"
  end.

(** typedef TFLArrival.  The helper hands these records on untouched. *)
Module TFLArrival.
Record t : Type := make {
  id : string;
  operationType : Z;
  vehicleId : string;
  naptanId : string;
  stationId : string;
  lineId : string;
  lineName : string;
  platformName : string;
  direction : string;
  bearing : string;
  destinationNaptanId : string;
  destinationName : string;
  timestamp : string;
  timeToStation : Z;
  currentLocation : string;
  towards : string;
  expectedArrival : string;
  timeToLive : string;
  modeName : string
}.
End TFLArrival.

(** What [response.data] of an arrivals request holds: the array the
    typedef declares, or, for a body that is no such array, what axios
    makes of it (here the text of the body).  The handler stores and sends
    it without looking at it. *)
Inductive ArrivalsData : Type :=
| TFLArrivals (arrivals : list TFLArrival.t)
| OtherBody (body : string).

(** typedef TFLDisruption, with the properties the helper reads.  Each is
    read behind a truthiness test or a [|| ''], so each may be missing. *)
Record TFLDisruption : Type := {
  category : JsString;
  categoryDescription : JsString;
  description : JsString
}.

(** typedef TFLNestedDisruption has the shape of TFLDisruption. *)
Definition TFLNestedDisruption : Type := TFLDisruption.

(** typedef TFLLineStatus, with the properties the helper reads.
    [disruption] is declared [TFLNestedDisruption|null] and optional. *)
Record TFLLineStatus : Type := {
  statusSeverity : Z;
  statusSeverityDescription : string;
  reason : JsString;
  disruption : option TFLNestedDisruption
}.

(** typedef TFLLine, with the properties the helper reads.  Both arrays
    are read as [lineData.p || []], so both may be missing; their entries
    are objects, as the typedef declares them. *)
Record TFLLine : Type := {
  disruptions : option (list TFLDisruption);
  lineStatuses : option (list TFLLineStatus)
}.

(** typedef StandardizedMessage. *)
Module StandardizedMessage.
Record t : Type := make {
  text : JsString;
  statusSeverity : Z;
  statusSeverityDescription : string;
  category : JsString;
  categoryDescription : JsString
}.
End StandardizedMessage.

(** ** mapStatusSeverity *)

(** Maps the numeric statusSeverity of TfL to a TubeStatus. *)
Definition mapStatusSeverity (statusSeverity : Z) : TubeStatus :=
  if (statusSeverity =? 10) || (statusSeverity =? 18) || (statusSeverity =? 19)
  then good
  else if includes [1; 2; 3; 6; 16; 20] statusSeverity
  then severe
  else warning.

(** ** The computations of the line-status handler

    The handler of a fulfilled line-status request computes everything
    below inline; each definition carries the name of the constant or
    variable it is in the source. *)

(** The callback of [lineStatuses.filter]:
    [status.reason || (status.disruption && status.disruption.description)]. *)
Definition status_has_message (status : TFLLineStatus) : bool :=
  truthy (reason status)
  || match disruption status with
     | Some d => truthy (description d)
     | None => false
     end.

(** The callback of [lineStatuses.filter(...).map]. *)
Definition status_message (status : TFLLineStatus) : StandardizedMessage.t :=
  {| StandardizedMessage.text :=
       js_or (js_or (reason status) (opt_chain (disruption status) description))
         (Some "");
     StandardizedMessage.statusSeverity := statusSeverity status;
     StandardizedMessage.statusSeverityDescription :=
       statusSeverityDescription status;
     StandardizedMessage.category :=
       js_or (opt_chain (disruption status) category) (Some "");
     StandardizedMessage.categoryDescription :=
       js_or (opt_chain (disruption status) categoryDescription) (Some "") |}.

Definition messagesFromStatuses (lineStatuses : list TFLLineStatus)
  : list StandardizedMessage.t :=
  map status_message (filter status_has_message lineStatuses).

(** The callback of [disruptions.filter]: [disruption.description]. *)
Definition disruption_has_message (d : TFLDisruption) : bool :=
  truthy (description d).

(** The callback of [disruptions.filter(...).map]. *)
Definition disruption_message (d : TFLDisruption) : StandardizedMessage.t :=
  {| StandardizedMessage.text := description d;
     StandardizedMessage.statusSeverity := 0;
     StandardizedMessage.statusSeverityDescription := "";
     StandardizedMessage.category := js_or (category d) (Some "");
     StandardizedMessage.categoryDescription :=
       js_or (categoryDescription d) (Some "") |}.

Definition messagesFromDisruptions (disruptions : list TFLDisruption)
  : list StandardizedMessage.t :=
  map disruption_message (filter disruption_has_message disruptions).

(** [[...messagesFromStatuses, ...messagesFromDisruptions]]. *)
Definition allMessages (lineStatuses : list TFLLineStatus)
    (disruptions : list TFLDisruption) : list StandardizedMessage.t :=
  messagesFromStatuses lineStatuses ++ messagesFromDisruptions disruptions.

(** A JavaScript [Map] keyed by message text: the entries in insertion
    order, one per key. *)
Module JsMap.
Definition t (V : Type) : Type := list (JsString * V).

Definition empty {V : Type} : t V := [].

Definition has {V : Type} (m : t V) (k : JsString) : bool :=
  existsb (fun e => JsString_eqb (fst e) k) m.

(** [set] keeps the place of a key that is there and appends a new one. *)
Fixpoint set {V : Type} (m : t V) (k : JsString) (v : V) : t V :=
  match m with
  | [] => [(k, v)]
  | (k', v') :: rest =>
      if JsString_eqb k' k then (k', v) :: rest
      else (k', v') :: set rest k v
  end.

Definition values {V : Type} (m : t V) : list V := map snd m.
End JsMap.

(** The callback of [allMessages.forEach], on the map built so far. *)
Definition dedup_step (uniqueMessagesMap : JsMap.t StandardizedMessage.t)
    (message : StandardizedMessage.t) : JsMap.t StandardizedMessage.t :=
  if truthy (StandardizedMessage.text message)
     && negb (JsMap.has uniqueMessagesMap (StandardizedMessage.text message))
  then JsMap.set uniqueMessagesMap (StandardizedMessage.text message) message
  else uniqueMessagesMap.

Definition uniqueMessagesMap (allMessages : list StandardizedMessage.t)
  : JsMap.t StandardizedMessage.t :=
  fold_left dedup_step allMessages JsMap.empty.

(** [Array.from(uniqueMessagesMap.values())]. *)
Definition combinedMessages (allMessages : list StandardizedMessage.t)
  : list StandardizedMessage.t :=
  JsMap.values (uniqueMessagesMap allMessages).

(** The body of [for (const status of lineStatuses)], on the
    worstSeverity so far. *)
Definition worst_step (worstSeverity : Z) (status : TFLLineStatus) : Z :=
  let severity := statusSeverity status in
  if negb (severity =? 10) && negb (severity =? 18) && negb (severity =? 19)
  then
    if (severity <? worstSeverity) || (worstSeverity =? 10)
    then severity
    else worstSeverity
  else worstSeverity.

(** worstSeverity after the loop; it starts at 10, "Good Service". *)
Definition worstSeverity (lineStatuses : list TFLLineStatus) : Z :=
  fold_left worst_step lineStatuses 10.

Definition worstStatus (lineStatuses : list TFLLineStatus) : TubeStatus :=
  if 0 <? Z.of_nat (List.length lineStatuses)
  then mapStatusSeverity (worstSeverity lineStatuses)
  else good.

(** ** The helper object, its notifications and its effects *)

(** A property of a payload: left out of the object literal, null, or
    holding a value. *)
Inductive JsProp (A : Type) : Type :=
| Omitted
| Null
| Value (a : A).
Arguments Omitted {A}.
Arguments Null {A}.
Arguments Value {A} a.

(** The payload of "GOT-TUBE-TIMES": [{ url, result }]. *)
Module TubeTimesPayload.
Record t : Type := make {
  url : option string;
  result : option ArrivalsData
}.
End TubeTimesPayload.

(** The payload of "GOT-TUBE-LINE-STATUS":
    [{ serviceURL, tubeStatus, tubeStatusDescription, combinedMessages }]. *)
Module LineStatusPayload.
Record t : Type := make {
  serviceURL : option string;
  tubeStatus : option TubeStatus;
  tubeStatusDescription : JsProp string;
  combinedMessages : list StandardizedMessage.t
}.
End LineStatusPayload.

Inductive Notification : Type :=
| GOT_TUBE_TIMES (payload : TubeTimesPayload.t)
| GOT_TUBE_LINE_STATUS (payload : LineStatusPayload.t).

(** What is thrown or rejected: a TypeError of the handler's own property
    reads, or the error axios rejects with. *)
Inductive JsError : Type :=
| TypeError (message : string)
| AxiosError (message : string).

Definition error_message (error : JsError) : string :=
  match error with
  | TypeError m => m
  | AxiosError m => m
  end.

(** The second argument of [console.error]: [error.message || error]. *)
Inductive LogArg : Type :=
| LogString (s : string)
| LogError (error : JsError).

Definition message_or_error (error : JsError) : LogArg :=
  if truthy (Some (error_message error))
  then LogString (error_message error)
  else LogError error.

(** What the helper does to the outside, in order. *)
Inductive Event : Type :=
| SocketNotification (n : Notification)
| ConsoleLog (line : string)
| ConsoleError (label : string) (arg : LogArg).

(** The fields of [this].  [None] is undefined ([result]: null; the code
    does not tell the two apart). *)
Record NodeHelper : Type := {
  url : option string;
  serviceURL : option string;
  result : option ArrivalsData;
  tubeStatus : option TubeStatus
}.

(** The object before [start]. *)
Definition created : NodeHelper :=
  {| url := None; serviceURL := None; result := None; tubeStatus := None |}.

(** How a statement ends. *)
Inductive Completion (A : Type) : Type :=
| Normal (a : A)
| Throw (error : JsError).
Arguments Normal {A} a.
Arguments Throw {A} error.

(** A computation on [this]: how it ends, the object afterwards (a throw
    keeps the assignments made before it) and what it emitted. *)
Definition Eff (A : Type) : Type :=
  NodeHelper -> Completion A * NodeHelper * list Event.

Definition ret {A : Type} (a : A) : Eff A :=
  fun this => (Normal a, this, []).

Definition bind {A B : Type} (m : Eff A) (k : A -> Eff B) : Eff B :=
  fun this =>
    match m this with
    | (Normal a, this1, out1) =>
        let '(c, this2, out2) := k a this1 in (c, this2, out1 ++ out2)
    | (Throw e, this1, out1) => (Throw e, this1, out1)
    end.

Notation "x <- m ;; k" := (bind m (fun x => k))
  (at level 61, m at next level, right associativity).
Notation "m ;; k" := (bind m (fun _ => k))
  (at level 61, right associativity).

Definition throw {A : Type} (error : JsError) : Eff A :=
  fun this => (Throw error, this, []).

Definition get_this : Eff NodeHelper :=
  fun this => (Normal this, this, []).

Definition emit (e : Event) : Eff unit :=
  fun this => (Normal tt, this, [e]).

Definition set_url (v : option string) : Eff unit :=
  fun this =>
    (Normal tt,
     {| url := v; serviceURL := serviceURL this;
        result := result this; tubeStatus := tubeStatus this |}, []).

Definition set_serviceURL (v : option string) : Eff unit :=
  fun this =>
    (Normal tt,
     {| url := url this; serviceURL := v;
        result := result this; tubeStatus := tubeStatus this |}, []).

Definition set_result (v : option ArrivalsData) : Eff unit :=
  fun this =>
    (Normal tt,
     {| url := url this; serviceURL := serviceURL this;
        result := v; tubeStatus := tubeStatus this |}, []).

Definition set_tubeStatus (v : option TubeStatus) : Eff unit :=
  fun this =>
    (Normal tt,
     {| url := url this; serviceURL := serviceURL this;
        result := result this; tubeStatus := v |}, []).

Definition sendSocketNotification (n : Notification) : Eff unit :=
  emit (SocketNotification n).

(** [o.p] on an object that may be null or undefined: a TypeError then. *)
Definition read {A B : Type} (o : option A) (name : string) (p : A -> B) : Eff B :=
  match o with
  | Some a => ret (p a)
  | None =>
      throw (TypeError
               ("Cannot read properties of null (reading '" ++ name ++ "')")%string)
  end.

(** [a[i]]: undefined out of range, and where the entry is null. *)
Definition index {A : Type} (a : list (option A)) (i : nat) : option A :=
  match nth_error a i with
  | Some x => x
  | None => None
  end.

(** How the promise of [axios.get] settles. *)
Inductive Settled (A : Type) : Type :=
| Fulfilled (data : A)
| Rejected (error : JsError).
Arguments Fulfilled {A} data.
Arguments Rejected {A} error.

(** [promise.then(onFulfilled).catch(onRejected)]: the second handler
    also receives what the first one throws. *)
Definition then_catch {A : Type} (settled : Settled A)
    (onFulfilled : A -> Eff unit) (onRejected : JsError -> Eff unit) : Eff unit :=
  fun this =>
    match settled with
    | Rejected error => onRejected error this
    | Fulfilled data =>
        match onFulfilled data this with
        | (Normal a, this1, out1) => (Normal a, this1, out1)
        | (Throw error, this1, out1) =>
            let '(c, this2, out2) := onRejected error this1 in
            (c, this2, out1 ++ out2)
        end
    end.

(** ** The methods of the helper

    A request has two parts: the call, which assigns the URL and starts the
    GET, and the handlers, which run when the GET settles.  Each method
    takes the way its request settles and runs both parts in a row;
    [getTubeStatusData_settled] and [getTubeLineStatusData_settled] are the
    second part alone, on whatever object other requests have left. *)

(** [start()].  Nothing in its [try] block throws. *)
Definition start : Eff unit :=
  emit (ConsoleLog "MMM-Tube-Times helper, started...") ;;
  set_result None.

(** The [then] handler of [getTubeStatusData]. *)
Definition getTubeStatusData_then (data : ArrivalsData) : Eff unit :=
  set_result (Some data) ;;
  this <- get_this ;;
  sendSocketNotification
    (GOT_TUBE_TIMES
       {| TubeTimesPayload.url := url this;
          TubeTimesPayload.result := result this |}).

(** The [catch] handler of [getTubeStatusData]. *)
Definition getTubeStatusData_catch (error : JsError) : Eff unit :=
  set_result None ;;
  emit (ConsoleError "[MMM-TubeTimes] Error fetching tube status:"
          (message_or_error error)) ;;
  this <- get_this ;;
  sendSocketNotification
    (GOT_TUBE_TIMES
       {| TubeTimesPayload.url := url this;
          TubeTimesPayload.result := result this |}).

(** The handlers of [getTubeStatusData], run when its request settles. *)
Definition getTubeStatusData_settled (settled : Settled ArrivalsData)
  : Eff unit :=
  then_catch settled getTubeStatusData_then getTubeStatusData_catch.

(** [getTubeStatusData(payload)], with the way its request settles: the
    assignment of the call, then the handlers. *)
Definition getTubeStatusData (payload : string)
    (settled : Settled ArrivalsData) : Eff unit :=
  set_url (Some payload) ;;
  getTubeStatusData_settled settled.

(** The [then] handler of [getTubeLineStatusData].  [data] is the array of
    the response; an entry of it may be null.  [DBG] is false in the source,
    so the two [DBG && console.log(...)] statements do nothing. *)
Definition getTubeLineStatusData_then (data : list (option TFLLine)) : Eff unit :=
  if 0 <? Z.of_nat (List.length data) then
    let lineData := index data 0 in
    lineStatuses0 <- read lineData "lineStatuses" lineStatuses ;;
    let lineStatuses := or_empty lineStatuses0 in
    disruptions0 <- read lineData "disruptions" disruptions ;;
    let disruptions := or_empty disruptions0 in
    let combinedMessages := combinedMessages (allMessages lineStatuses disruptions) in
    let worstStatus := worstStatus lineStatuses in
    set_tubeStatus (Some worstStatus) ;;
    statusSeverityDescription <-
      (if 0 <? Z.of_nat (List.length lineStatuses)
       then
         d <- read (nth_error lineStatuses 0) "statusSeverityDescription"
                statusSeverityDescription ;;
         ret (Value d)
       else ret Null) ;;
    this <- get_this ;;
    sendSocketNotification
      (GOT_TUBE_LINE_STATUS
         {| LineStatusPayload.serviceURL := serviceURL this;
            LineStatusPayload.tubeStatus := tubeStatus this;
            LineStatusPayload.tubeStatusDescription :=
              match tubeStatus this with
              | Some good => Null
              | _ => statusSeverityDescription
              end;
            LineStatusPayload.combinedMessages := combinedMessages |})
  else
    set_tubeStatus (Some good) ;;
    this <- get_this ;;
    sendSocketNotification
      (GOT_TUBE_LINE_STATUS
         {| LineStatusPayload.serviceURL := serviceURL this;
            LineStatusPayload.tubeStatus := tubeStatus this;
            LineStatusPayload.tubeStatusDescription := Omitted;
            LineStatusPayload.combinedMessages := [] |}).

(** [this.tubeStatus || "good"]: every status is a non-empty string. *)
Definition tubeStatus_or_good (v : option TubeStatus) : TubeStatus :=
  match v with
  | Some s => s
  | None => good
  end.

(** The [catch] handler of [getTubeLineStatusData]. *)
Definition getTubeLineStatusData_catch (error : JsError) : Eff unit :=
  set_result None ;;
  emit (ConsoleError "[MMM-TubeTimes] Error fetching tube line status:"
          (message_or_error error)) ;;
  this <- get_this ;;
  sendSocketNotification
    (GOT_TUBE_LINE_STATUS
       {| LineStatusPayload.serviceURL := serviceURL this;
          LineStatusPayload.tubeStatus := Some (tubeStatus_or_good (tubeStatus this));
          LineStatusPayload.tubeStatusDescription := Omitted;
          LineStatusPayload.combinedMessages := [] |}).

(** The handlers of [getTubeLineStatusData], run when its request
    settles. *)
Definition getTubeLineStatusData_settled
    (settled : Settled (list (option TFLLine))) : Eff unit :=
  then_catch settled getTubeLineStatusData_then getTubeLineStatusData_catch.

(** [getTubeLineStatusData(payload)], with the way its request settles: the
    assignment of the call, then the handlers. *)
Definition getTubeLineStatusData (payload : string)
    (settled : Settled (list (option TFLLine))) : Eff unit :=
  set_serviceURL (Some payload) ;;
  getTubeLineStatusData_settled settled.

(** [socketNotificationReceived(notification, payload)]. *)
Definition socketNotificationReceived (notification payload : string)
    (arrivals : Settled ArrivalsData)
    (lineStatus : Settled (list (option TFLLine))) : Eff unit :=
  (if (notification =? "GET-TUBE-STATUS")%string
   then getTubeStatusData payload arrivals
   else ret tt) ;;
  (if (notification =? "GET-TUBE-LINE-STATUS")%string
   then getTubeLineStatusData payload lineStatus
   else ret tt).

(** What a run sent over the socket. *)
Fixpoint notifications (out : list Event) : list Notification :=
  match out with
  | [] => []
  | SocketNotification n :: rest => n :: notifications rest
  | _ :: rest => notifications rest
  end.

(** ** What the properties are stated with *)

(** The three parts of a run. *)
Definition completion {A : Type} (r : Completion A * NodeHelper * list Event)
  : Completion A := fst (fst r).
Definition after {A : Type} (r : Completion A * NodeHelper * list Event)
  : NodeHelper := snd (fst r).
Definition emitted {A : Type} (r : Completion A * NodeHelper * list Event)
  : list Event := snd r.

(** A severity that does not stand for good service: not 10, 18 or 19. *)
Definition non_good (severity : Z) : bool :=
  negb (includes [10; 18; 19] severity).

(** What the loop keeps: [w] is 10 while no severity that counts was seen,
    and the least of those seen afterwards. *)
Definition least_so_far (w : Z) (seen : list Z) : Prop :=
  Forall (fun x => non_good x = true) seen /\
  ((seen = [] /\ w = 10) \/ (In w seen /\ forall x, In x seen -> w <= x)).

(** The description the handler sends for the statuses of a line. *)
Definition description_sent (lineStatuses : list TFLLineStatus) : JsProp string :=
  match worstStatus lineStatuses with
  | good => Null
  | _ =>
      match lineStatuses with
      | first :: _ => Value (statusSeverityDescription first)
      | [] => Null
      end
  end.

(** What a line-status request answers with, when it answers once. *)
Definition answer (r : Completion unit * NodeHelper * list Event)
  : option LineStatusPayload.t :=
  match notifications (emitted r) with
  | [GOT_TUBE_LINE_STATUS p] => Some p
  | _ => None
  end.

(** Two messages with the same text. *)
Definition same_text (a b : StandardizedMessage.t) : bool :=
  JsString_eqb (StandardizedMessage.text a) (StandardizedMessage.text b).

(** The first occurrences, in the words of the specification: a message is
    kept when its text is not empty and none of the messages before it in
    the list has the same text.  [earlier] holds the messages before
    [messages], in order. *)
Fixpoint first_occurrences (earlier messages : list StandardizedMessage.t)
  : list StandardizedMessage.t :=
  match messages with
  | [] => []
  | m :: rest =>
      (if truthy (StandardizedMessage.text m)
          && negb (existsb (fun e => same_text e m) earlier)
       then [m] else [])
      ++ first_occurrences (earlier ++ [m]) rest
  end.

(** The keys of the map are the non-empty texts of the messages consumed. *)
Definition keys_are_texts (m : JsMap.t StandardizedMessage.t)
    (earlier : list StandardizedMessage.t) : Prop :=
  forall k,
    JsMap.has m k
    = truthy k
      && existsb (fun e => JsString_eqb (StandardizedMessage.text e) k) earlier.

(** A property that is there and not the empty string. *)
Definition non_empty (v : JsString) : Prop :=
  exists s, v = Some s /\ s <> "".

(** The string of a property, and the empty string for a missing one. *)
Definition string_of (v : JsString) : string :=
  match v with
  | Some s => s
  | None => ""
  end.

(** The two kinds of message in the words of the specification. *)
Module Spec.

(** A LineStatus entry gives a message when it has a non-empty reason or a
    nested disruption with a non-empty description. *)
Definition status_qualifies (status : TFLLineStatus) : bool :=
  match reason status, disruption status with
  | Some r, Some d =>
      negb (r =? "")%string || negb (string_of (description d) =? "")%string
  | Some r, None => negb (r =? "")%string
  | None, Some d => negb (string_of (description d) =? "")%string
  | None, None => false
  end.

(** text: the reason if present, else the description of the nested
    disruption; category and categoryDescription: those of the nested
    disruption if present, else the empty string; severity and
    severityDescription: those of the entry. *)
Definition status_message (status : TFLLineStatus) : StandardizedMessage.t :=
  {| StandardizedMessage.text :=
       match reason status with
       | Some r =>
           if (r =? "")%string
           then match disruption status with
                | Some d => description d
                | None => None
                end
           else Some r
       | None =>
           match disruption status with
           | Some d => description d
           | None => None
           end
       end;
     StandardizedMessage.statusSeverity := statusSeverity status;
     StandardizedMessage.statusSeverityDescription :=
       statusSeverityDescription status;
     StandardizedMessage.category :=
       match disruption status with
       | Some d => Some (string_of (category d))
       | None => Some ""
       end;
     StandardizedMessage.categoryDescription :=
       match disruption status with
       | Some d => Some (string_of (categoryDescription d))
       | None => Some ""
       end |}.

(** A top-level disruption gives a message when its description is not
    empty. *)
Definition disruption_qualifies (d : TFLDisruption) : bool :=
  negb (string_of (description d) =? "")%string.

(** text: the description; severity 0 with an empty description; category
    and categoryDescription: those of the disruption. *)
Definition disruption_message (d : TFLDisruption) : StandardizedMessage.t :=
  {| StandardizedMessage.text := description d;
     StandardizedMessage.statusSeverity := 0;
     StandardizedMessage.statusSeverityDescription := "";
     StandardizedMessage.category := Some (string_of (category d));
     StandardizedMessage.categoryDescription :=
       Some (string_of (categoryDescription d)) |}.

End Spec.

(** The request fails when axios rejects or when the [then] handler throws
    on the response: in both cases the [catch] handler runs. *)
Definition failed (settled : Settled (list (option TFLLine))) : Prop :=
  match settled with
  | Rejected _ => True
  | Fulfilled data =>
      exists this error,
        completion (getTubeLineStatusData_then data this) = Throw error
  end.

(** The first LineStatus entry of the first line of a response. *)
Definition first_line_status (data : list (option TFLLine))
  : option TFLLineStatus :=
  match index data 0 with
  | Some line => nth_error (or_empty (lineStatuses line)) 0
  | None => None
  end.

(** The rule for the description, for one response: it is the
    severityDescription of the first LineStatus entry when the status sent
    is not "good", and null when it is "good". *)
Definition description_rule (data : list (option TFLLine)) : Prop :=
  forall (payload : string) (this : NodeHelper),
  exists p,
    answer (getTubeLineStatusData payload (Fulfilled data) this) = Some p /\
    (LineStatusPayload.tubeStatus p <> Some good ->
     exists first,
       first_line_status data = Some first /\
       LineStatusPayload.tubeStatusDescription p
       = Value (statusSeverityDescription first)) /\
    (LineStatusPayload.tubeStatus p = Some good ->
     LineStatusPayload.tubeStatusDescription p = Null).

(** A response that is what the typedefs declare: an array of lines, each
    with its two arrays. *)
Definition conforms (data : list (option TFLLine)) : bool :=
  forallb
    (fun entry =>
       match entry with
       | Some line =>
           match lineStatuses line, disruptions line with
           | Some _, Some _ => true
           | _, _ => false
           end
       | None => false
       end) data.

(** A line-status request that counts as failed in the words of the
    specification: a rejection, or a response of another shape than the
    one declared. *)
Definition rejected_or_malformed (settled : Settled (list (option TFLLine)))
  : Prop :=
  match settled with
  | Rejected _ => True
  | Fulfilled data => conforms data = false
  end.

(** The rule for failures, for one settlement: if it counts as failed, the
    handlers complete normally and answer with the last known status, or
    "good" when there is none, no message and no description. *)
Definition failure_answer_rule (settled : Settled (list (option TFLLine)))
  : Prop :=
  rejected_or_malformed settled ->
  forall this : NodeHelper,
    let run := getTubeLineStatusData_settled settled this in
    completion run = Normal tt /\
    notifications (emitted run)
    = [GOT_TUBE_LINE_STATUS
         {| LineStatusPayload.serviceURL := serviceURL this;
            LineStatusPayload.tubeStatus :=
              Some match tubeStatus this with
                   | Some lastKnownStatus => lastKnownStatus
                   | None => good
                   end;
            LineStatusPayload.tubeStatusDescription := Omitted;
            LineStatusPayload.combinedMessages := [] |}].

(** An arrivals request that counts as failed in the words of the
    specification: a rejection (network error, status outside 2xx), or a
    body that is no array of arrivals. *)
Definition rejected_or_malformed_body (settled : Settled ArrivalsData) : Prop :=
  match settled with
  | Rejected _ => True
  | Fulfilled (OtherBody _) => True
  | Fulfilled (TFLArrivals _) => False
  end.

(** The rule for failed arrivals requests, for one settlement: if it counts
    as failed, the answer carries null. *)
Definition null_result_rule (settled : Settled ArrivalsData) : Prop :=
  rejected_or_malformed_body settled ->
  forall this : NodeHelper,
    notifications (emitted (getTubeStatusData_settled settled this))
    = [GOT_TUBE_TIMES
         {| TubeTimesPayload.url := url this;
            TubeTimesPayload.result := None |}].

(** ** The turns of the event loop

    The helper runs one piece of code at a time: [start], the body of
    [socketNotificationReceived] up to the GET it starts, or the handlers
    of a GET that has settled.  Between the call of a request and its
    settlement any other turn may run. *)

(** What [socketNotificationReceived(notification, payload)] does before
    it returns: the assignment of the method the notification names. *)
Definition socketNotificationReceived_call (notification payload : string)
  : Eff unit :=
  (if (notification =? "GET-TUBE-STATUS")%string
   then set_url (Some payload)
   else ret tt) ;;
  (if (notification =? "GET-TUBE-LINE-STATUS")%string
   then set_serviceURL (Some payload)
   else ret tt).

Inductive Turn : Type :=
| Started
| Received (notification payload : string)
| ArrivalsSettled (settled : Settled ArrivalsData)
| LineStatusSettled (settled : Settled (list (option TFLLine))).

Definition turn (t : Turn) : Eff unit :=
  match t with
  | Started => start
  | Received notification payload =>
      socketNotificationReceived_call notification payload
  | ArrivalsSettled settled => getTubeStatusData_settled settled
  | LineStatusSettled settled => getTubeLineStatusData_settled settled
  end.

Fixpoint turns (ts : list Turn) : Eff unit :=
  match ts with
  | [] => ret tt
  | t :: rest => turn t ;; turns rest
  end.

(** The two kinds of answer. *)
Inductive Kind : Type :=
| TubeTimes
| LineStatus.

Definition kind_of (n : Notification) : Kind :=
  match n with
  | GOT_TUBE_TIMES _ => TubeTimes
  | GOT_TUBE_LINE_STATUS _ => LineStatus
  end.

(** The answers a sequence of turns owes: one per settlement. *)
Definition settlements (ts : list Turn) : list Kind :=
  flat_map
    (fun t =>
       match t with
       | ArrivalsSettled _ => [TubeTimes]
       | LineStatusSettled _ => [LineStatus]
       | _ => []
       end) ts.

(** The payload of the last notification of a name received in [ts], and
    [before] when there is none. *)
Definition last_received (name : string) (ts : list Turn)
    (before : option string) : option string :=
  fold_left
    (fun latest t =>
       match t with
       | Received notification payload =>
           if (notification =? name)%string then Some payload else latest
       | _ => latest
       end) ts before.

(** A turn after which the status to fall back on is the one before it:
    any turn but a line-status settlement that does not fail. *)
Definition keeps_status (t : Turn) : Prop :=
  match t with
  | LineStatusSettled settled => failed settled
  | _ => True
  end.

(** The errors a run logged, with their labels. *)
Fixpoint console_errors (out : list Event) : list (string * LogArg) :=
  match out with
  | [] => []
  | ConsoleError label arg :: rest => (label, arg) :: console_errors rest
  | _ :: rest => console_errors rest
  end.

(** A message as every consumer of an answer may take it: a text that is
    not empty, and a category and a category description that are
    strings. *)
Definition complete_message (m : StandardizedMessage.t) : Prop :=
  non_empty (StandardizedMessage.text m) /\
  (exists c, StandardizedMessage.category m = Some c) /\
  (exists c, StandardizedMessage.categoryDescription m = Some c).


(** The severities that stand for good service. *)
Definition good_severity (status : TFLLineStatus) : Prop :=
  In (statusSeverity status) [10; 18; 19].

(** ** Sample data *)

(** A LineStatus entry without a nested disruption. *)
Definition sample_status (severity : Z) (severityDescription : string)
    (why : JsString) : TFLLineStatus :=
  {| statusSeverity := severity;
     statusSeverityDescription := severityDescription;
     reason := why;
     disruption := None |}.

Definition signal_failure : TFLDisruption :=
  {| category := Some "RealTime";
     categoryDescription := Some "RealTime";
     description := Some "Signal failure" |}.

(** A line with severities 10, 9, 18 and 3 and one top-level disruption. *)
Definition sample_line : TFLLine :=
  {| disruptions := Some [signal_failure];
     lineStatuses :=
       Some [sample_status 10 "Good Service" None;
             sample_status 9 "Minor Delays" (Some "Delays");
             sample_status 18 "No Issues" None;
             sample_status 3 "Part Suspended" (Some "Delays")] |}.

(** A message with a text and a severity to tell it by. *)
Definition sample_message (text : string) (severity : Z)
  : StandardizedMessage.t :=
  {| StandardizedMessage.text := Some text;
     StandardizedMessage.statusSeverity := severity;
     StandardizedMessage.statusSeverityDescription := "";
     StandardizedMessage.category := Some "";
     StandardizedMessage.categoryDescription := Some "" |}.

(** A line object with neither of its arrays. *)
Definition bare_line : TFLLine :=
  {| disruptions := None; lineStatuses := None |}.

(** The helper after a line was graded "warning". *)
Definition after_warning : NodeHelper :=
  {| url := None; serviceURL := Some "earlier";
     result := None; tubeStatus := Some warning |}.

(** * Properties *)

(** ** Sequencing *)

Lemma bind_ret_l {A B : Type} (a : A) (k : A -> Eff B) (this : NodeHelper) :
  bind (ret a) k this = k a this.
Proof.
  unfold bind, ret. now destruct (k a this) as ((c & this2) & out2).
Qed.

Lemma bind_ret_r {A : Type} (m : Eff A) (this : NodeHelper) :
  bind m ret this = m this.
Proof.
  unfold bind, ret. destruct (m this) as (([a | e] & this1) & out1);
    [now rewrite app_nil_r | reflexivity].
Qed.

Lemma bind_assoc {A B C : Type} (m : Eff A) (k : A -> Eff B) (h : B -> Eff C)
    (this : NodeHelper) :
  bind (bind m k) h this = bind m (fun a => bind (k a) h) this.
Proof.
  unfold bind. destruct (m this) as (([a | e] & this1) & out1); [| reflexivity].
  destruct (k a this1) as (([b | e] & this2) & out2); [| reflexivity].
  destruct (h b this2) as ((c & this3) & out3). now rewrite app_assoc.
Qed.

(** A throw ends the sequence: what follows does not run. *)
Lemma bind_throw {A B : Type} (error : JsError) (k : A -> Eff B)
    (this : NodeHelper) :
  bind (throw error) k this = (Throw error, this, []).
Proof. reflexivity. Qed.

(** X1. [socketNotificationReceived] starts the arrivals request on
    "GET-TUBE-STATUS" and nothing else, the line-status request on
    "GET-TUBE-LINE-STATUS" and nothing else, and on any other notification
    it changes nothing, sends nothing and logs nothing. *)
Lemma socketNotificationReceived_dispatch (notification payload : string)
    (arrivals : Settled ArrivalsData)
    (lineStatus : Settled (list (option TFLLine))) (this : NodeHelper) :
  socketNotificationReceived notification payload arrivals lineStatus this =
  if (notification =? "GET-TUBE-STATUS")%string
  then getTubeStatusData payload arrivals this
  else if (notification =? "GET-TUBE-LINE-STATUS")%string
       then getTubeLineStatusData payload lineStatus this
       else (Normal tt, this, []).
Proof.
  unfold socketNotificationReceived.
  destruct (String.eqb_spec notification "GET-TUBE-STATUS") as [-> | N].
  - cbn [String.eqb Ascii.eqb Bool.eqb]. cbn -[getTubeStatusData bind].
    assert (completion (getTubeStatusData payload arrivals this) = Normal tt)
      as C by (destruct arrivals; reflexivity).
    unfold bind at 1.
    destruct (getTubeStatusData payload arrivals this) as ((c & this1) & out1).
    cbn in C. subst c. cbn. now rewrite app_nil_r.
  - rewrite bind_ret_l.
    destruct (notification =? "GET-TUBE-LINE-STATUS")%string; reflexivity.
Qed.

(** ** Strings that may be missing *)

Lemma JsString_eqb_eq (a b : JsString) : JsString_eqb a b = true <-> a = b.
Proof.
  destruct a as [s|], b as [t|]; simpl; split; intro H;
    try discriminate; try reflexivity.
  - apply String.eqb_eq in H. now subst.
  - injection H as ->. apply String.eqb_refl.
Qed.

Lemma JsString_eqb_refl (a : JsString) : JsString_eqb a a = true.
Proof. now apply JsString_eqb_eq. Qed.

Lemma JsString_eqb_neq (a b : JsString) : JsString_eqb a b = false <-> a <> b.
Proof.
  rewrite <- JsString_eqb_eq. destruct (JsString_eqb a b); split; congruence.
Qed.

Lemma truthy_spec (v : JsString) :
  truthy v = true <-> exists s, v = Some s /\ s <> "".
Proof.
  destruct v as [s|]; simpl.
  - rewrite negb_true_iff, String.eqb_neq. split.
    + intro H. now exists s.
    + intros (t & [= ->] & H). exact H.
  - split; [discriminate | intros (t & H & _); discriminate].
Qed.

Lemma js_or_truthy (a b : JsString) : truthy a = true -> js_or a b = a.
Proof. unfold js_or. now intros ->. Qed.

Lemma js_or_falsy (a b : JsString) : truthy a = false -> js_or a b = b.
Proof. unfold js_or. now intros ->. Qed.

(** ** mapStatusSeverity *)

Lemma includes_In (l : list Z) (x : Z) : includes l x = true <-> In x l.
Proof.
  unfold includes. rewrite existsb_exists. split.
  - intros (y & Hy & E). apply Z.eqb_eq in E. now subst.
  - intro H. exists x. split; [exact H | apply Z.eqb_refl].
Qed.

Lemma includes_not_In (l : list Z) (x : Z) : includes l x = false <-> ~ In x l.
Proof.
  rewrite <- includes_In. destruct (includes l x); split; congruence.
Qed.

(** The first test of [mapStatusSeverity] is membership in [10; 18; 19]. *)
Lemma mapStatusSeverity_unfold (z : Z) :
  mapStatusSeverity z =
  if includes [10; 18; 19] z then good
  else if includes [1; 2; 3; 6; 16; 20] z then severe else warning.
Proof.
  unfold mapStatusSeverity. cbn [includes existsb].
  rewrite (Z.eqb_sym z 10), (Z.eqb_sym z 18), (Z.eqb_sym z 19).
  rewrite !orb_false_r, <- !orb_assoc. reflexivity.
Qed.

Lemma good_not_severe (z : Z) :
  In z [10; 18; 19] -> In z [1; 2; 3; 6; 16; 20] -> False.
Proof. simpl. lia. Qed.

Lemma mapStatusSeverity_classify (z : Z) :
  (In z [10; 18; 19] /\ mapStatusSeverity z = good) \/
  (In z [1; 2; 3; 6; 16; 20] /\ mapStatusSeverity z = severe) \/
  (~ In z [10; 18; 19] /\ ~ In z [1; 2; 3; 6; 16; 20]
   /\ mapStatusSeverity z = warning).
Proof.
  rewrite mapStatusSeverity_unfold.
  destruct (includes [10; 18; 19] z) eqn:G.
  - left. split; [now apply includes_In | reflexivity].
  - right. apply includes_not_In in G.
    destruct (includes [1; 2; 3; 6; 16; 20] z) eqn:S.
    + left. split; [now apply includes_In | reflexivity].
    + right. apply includes_not_In in S. now repeat split.
Qed.

(** C2. The severity-to-status mapping yields "good" exactly on 10, 18 and
    19, "severe" exactly on 1, 2, 3, 6, 16 and 20, and "warning" on every
    other integer, among them all the others of 0..20. *)
Theorem mapStatusSeverity_classes : forall statusSeverity : Z,
  (mapStatusSeverity statusSeverity = good <-> In statusSeverity [10; 18; 19]) /\
  (mapStatusSeverity statusSeverity = severe
   <-> In statusSeverity [1; 2; 3; 6; 16; 20]) /\
  (mapStatusSeverity statusSeverity = warning
   <-> ~ In statusSeverity [10; 18; 19] /\ ~ In statusSeverity [1; 2; 3; 6; 16; 20]) /\
  Forall (fun other => mapStatusSeverity other = warning)
    [0; 4; 5; 7; 8; 9; 11; 12; 13; 14; 15; 17].
Proof.
  intro z. split; [| split; [| split]].
  4: repeat constructor.
  all: destruct (mapStatusSeverity_classify z)
         as [(G & ->) | [(S & ->) | (G & S & ->)]];
    split; intro H; try discriminate; try assumption; try reflexivity;
    try (now split); exfalso;
    try (destruct H as (G' & S'); contradiction);
    try contradiction; eauto using good_not_severe.
Qed.

(** ** The worst severity *)

Lemma worst_step_non_good (w : Z) (status : TFLLineStatus) :
  worst_step w status =
  if non_good (statusSeverity status)
  then if (statusSeverity status <? w) || (w =? 10)
       then statusSeverity status else w
  else w.
Proof.
  unfold worst_step, non_good. cbn [includes existsb].
  rewrite (Z.eqb_sym 10), (Z.eqb_sym 18), (Z.eqb_sym 19).
  rewrite orb_false_r, !negb_orb, andb_assoc. reflexivity.
Qed.

Lemma non_good_not_10 (x : Z) : non_good x = true -> x <> 10.
Proof.
  unfold non_good. rewrite negb_true_iff, includes_not_In.
  intros H ->. apply H. simpl. auto.
Qed.

Lemma least_so_far_step (w : Z) (seen : list Z) (status : TFLLineStatus) :
  least_so_far w seen ->
  least_so_far (worst_step w status)
    (seen ++ filter non_good [statusSeverity status]).
Proof.
  intros (Hng & Hw). rewrite worst_step_non_good. cbn [filter].
  destruct (non_good (statusSeverity status)) eqn:N.
  2: { rewrite app_nil_r. now split. }
  set (sev := statusSeverity status) in *.
  split.
  { apply Forall_app. split; [exact Hng | now constructor]. }
  right. destruct Hw as [(-> & ->) | (Hin & Hle)].
  - rewrite Z.eqb_refl, orb_true_r. simpl. split; [now left |].
    intros x [<- | []]. lia.
  - assert (w <> 10) as W.
    { apply non_good_not_10. rewrite Forall_forall in Hng. now apply Hng. }
    apply Z.eqb_neq in W. rewrite W, orb_false_r.
    destruct (Z.ltb_spec sev w) as [L | L].
    + split; [apply in_or_app; right; now left |].
      intros x Hx. apply in_app_or in Hx as [Hx | [<- | []]].
      * apply Hle in Hx. lia.
      * lia.
    + split; [apply in_or_app; now left |].
      intros x Hx. apply in_app_or in Hx as [Hx | [<- | []]].
      * now apply Hle.
      * exact L.
Qed.

Lemma least_so_far_fold (lineStatuses : list TFLLineStatus) :
  forall w seen,
    least_so_far w seen ->
    least_so_far (fold_left worst_step lineStatuses w)
      (seen ++ filter non_good (map statusSeverity lineStatuses)).
Proof.
  induction lineStatuses as [| status rest IH]; intros w seen H; simpl.
  - now rewrite app_nil_r.
  - apply (least_so_far_step _ _ status) in H. apply IH in H.
    cbn [filter] in H.
    destruct (non_good (statusSeverity status)).
    + now rewrite <- app_assoc in H.
    + now rewrite app_nil_r in H.
Qed.

(** After the loop, [worstSeverity] is 10 when no entry counts and the
    least severity that counts otherwise. *)
Lemma worstSeverity_least (lineStatuses : list TFLLineStatus) :
  let severities := filter non_good (map statusSeverity lineStatuses) in
  (severities = [] /\ worstSeverity lineStatuses = 10) \/
  (In (worstSeverity lineStatuses) severities /\
   forall x, In x severities -> worstSeverity lineStatuses <= x).
Proof.
  assert (least_so_far 10 []) as H0.
  { split; [constructor | left; now split]. }
  apply (least_so_far_fold lineStatuses) in H0. simpl in H0.
  exact (proj2 H0).
Qed.

Lemma worstStatus_mapStatusSeverity (lineStatuses : list TFLLineStatus) :
  worstStatus lineStatuses = mapStatusSeverity (worstSeverity lineStatuses).
Proof.
  unfold worstStatus. destruct lineStatuses as [| s rest]; [reflexivity |].
  cbn [List.length]. destruct (Z.ltb_spec 0 (Z.of_nat (S (List.length rest)))).
  - reflexivity.
  - lia.
Qed.

(** ** Runs of the line-status request *)

Lemma length_positive {A : Type} (x : A) (l : list A) :
  (0 <? Z.of_nat (List.length (x :: l))) = true.
Proof. apply Z.ltb_lt. cbn [List.length]. lia. Qed.

(** The call assigns [serviceURL]; the handlers run on the object so
    changed. *)
Lemma getTubeLineStatusData_request (payload : string)
    (settled : Settled (list (option TFLLine))) (this : NodeHelper) :
  getTubeLineStatusData payload settled this =
  getTubeLineStatusData_settled settled
    {| url := url this; serviceURL := Some payload;
       result := result this; tubeStatus := tubeStatus this |}.
Proof.
  unfold getTubeLineStatusData, bind, set_serviceURL.
  now destruct (getTubeLineStatusData_settled settled _) as ((c & this2) & out).
Qed.

(** The [then] handler on an array that starts with a line: one
    notification, no throw and no error logged. *)
Lemma getTubeLineStatusData_then_line (line : TFLLine)
    (rest : list (option TFLLine)) (this : NodeHelper) :
  let lineStatuses := or_empty (lineStatuses line) in
  let disruptions := or_empty (disruptions line) in
  getTubeLineStatusData_then (Some line :: rest) this =
  (Normal tt,
   {| url := url this; serviceURL := serviceURL this;
      result := result this;
      tubeStatus := Some (worstStatus lineStatuses) |},
   [SocketNotification
      (GOT_TUBE_LINE_STATUS
         {| LineStatusPayload.serviceURL := serviceURL this;
            LineStatusPayload.tubeStatus := Some (worstStatus lineStatuses);
            LineStatusPayload.tubeStatusDescription :=
              description_sent lineStatuses;
            LineStatusPayload.combinedMessages :=
              combinedMessages (allMessages lineStatuses disruptions) |})]).
Proof.
  intros ls ds. unfold getTubeLineStatusData_then. rewrite length_positive.
  unfold description_sent, bind. fold ls ds.
  cbn -[worstStatus combinedMessages allMessages Z.ltb Z.of_nat].
  fold ls ds.
  destruct ls as [| first more] eqn:E.
  - reflexivity.
  - rewrite length_positive.
    cbn -[worstStatus combinedMessages allMessages].
    destruct (worstStatus (first :: more)); reflexivity.
Qed.

(** A null first entry: the first property read throws, before any
    assignment and any notification. *)
Lemma getTubeLineStatusData_then_null (rest : list (option TFLLine))
    (this : NodeHelper) :
  getTubeLineStatusData_then (None :: rest) this =
  (Throw (TypeError "Cannot read properties of null (reading 'lineStatuses')"),
   this, []).
Proof.
  unfold getTubeLineStatusData_then. rewrite length_positive. reflexivity.
Qed.

Lemma getTubeLineStatusData_then_empty (this : NodeHelper) :
  getTubeLineStatusData_then [] this =
  (Normal tt,
   {| url := url this; serviceURL := serviceURL this;
      result := result this; tubeStatus := Some good |},
   [SocketNotification
      (GOT_TUBE_LINE_STATUS
         {| LineStatusPayload.serviceURL := serviceURL this;
            LineStatusPayload.tubeStatus := Some good;
            LineStatusPayload.tubeStatusDescription := Omitted;
            LineStatusPayload.combinedMessages := [] |})]).
Proof. reflexivity. Qed.

(** The handler throws exactly on an array whose first entry is null, and
    then it has changed nothing. *)
Lemma getTubeLineStatusData_then_throws (data : list (option TFLLine))
    (this : NodeHelper) (error : JsError) :
  completion (getTubeLineStatusData_then data this) = Throw error ->
  (exists rest, data = None :: rest) /\
  getTubeLineStatusData_then data this = (Throw error, this, []).
Proof.
  destruct data as [| [line |] rest].
  - rewrite getTubeLineStatusData_then_empty. discriminate.
  - rewrite getTubeLineStatusData_then_line. discriminate.
  - rewrite getTubeLineStatusData_then_null. cbn. intros [= <-].
    split; [now exists rest | reflexivity].
Qed.

Lemma getTubeLineStatusData_catch_run (error : JsError) (this : NodeHelper) :
  getTubeLineStatusData_catch error this =
  (Normal tt,
   {| url := url this; serviceURL := serviceURL this;
      result := None; tubeStatus := tubeStatus this |},
   [ConsoleError "[MMM-TubeTimes] Error fetching tube line status:"
      (message_or_error error);
    SocketNotification
      (GOT_TUBE_LINE_STATUS
         {| LineStatusPayload.serviceURL := serviceURL this;
            LineStatusPayload.tubeStatus :=
              Some (tubeStatus_or_good (tubeStatus this));
            LineStatusPayload.tubeStatusDescription := Omitted;
            LineStatusPayload.combinedMessages := [] |})]).
Proof. reflexivity. Qed.

(** A fulfilled request whose array starts with a line. *)
Lemma getTubeLineStatusData_line (payload : string) (line : TFLLine)
    (rest : list (option TFLLine)) (this : NodeHelper) :
  let lineStatuses := or_empty (lineStatuses line) in
  let disruptions := or_empty (disruptions line) in
  getTubeLineStatusData payload (Fulfilled (Some line :: rest)) this =
  (Normal tt,
   {| url := url this; serviceURL := Some payload;
      result := result this;
      tubeStatus := Some (worstStatus lineStatuses) |},
   [SocketNotification
      (GOT_TUBE_LINE_STATUS
         {| LineStatusPayload.serviceURL := Some payload;
            LineStatusPayload.tubeStatus := Some (worstStatus lineStatuses);
            LineStatusPayload.tubeStatusDescription :=
              description_sent lineStatuses;
            LineStatusPayload.combinedMessages :=
              combinedMessages (allMessages lineStatuses disruptions) |})]).
Proof.
  intros ls ds. rewrite getTubeLineStatusData_request.
  unfold getTubeLineStatusData_settled, then_catch.
  now rewrite getTubeLineStatusData_then_line.
Qed.

(** A failed request: the [catch] handler runs, on the object as it is
    when the request settles. *)
Lemma getTubeLineStatusData_failed
    (settled : Settled (list (option TFLLine))) (this : NodeHelper) :
  failed settled ->
  exists error,
    getTubeLineStatusData_settled settled this =
    getTubeLineStatusData_catch error this.
Proof.
  intro F. unfold getTubeLineStatusData_settled, then_catch.
  destruct settled as [data | error]; cbn [failed] in F.
  - destruct F as (this0 & error & F).
    apply getTubeLineStatusData_then_throws in F as ((rest & ->) & _).
    rewrite getTubeLineStatusData_then_null.
    eexists. rewrite getTubeLineStatusData_catch_run. reflexivity.
  - now exists error.
Qed.

(** C1. For a response whose first entry is a line, the status sent is the
    mapping of the least statusSeverity among the entries whose severity is
    not 10, 18 or 19; it is "good" when there is no such entry (the array
    is empty, or all its severities are 10, 18 or 19).  On a non-empty array
    it is the mapping of the worstSeverity the loop computes from 10.
    Severities 10, 9, 18, 3 give "severe". *)
Theorem aggregate_status_least_severity :
  forall (payload : string) (line : TFLLine) (rest : list (option TFLLine))
         (this : NodeHelper),
    let statuses := or_empty (lineStatuses line) in
    let severities := filter non_good (map statusSeverity statuses) in
    exists p,
      answer (getTubeLineStatusData payload (Fulfilled (Some line :: rest)) this)
      = Some p /\
      (severities = [] -> LineStatusPayload.tubeStatus p = Some good) /\
      (severities <> [] ->
       exists least,
         In least severities /\
         (forall x, In x severities -> least <= x) /\
         LineStatusPayload.tubeStatus p = Some (mapStatusSeverity least)) /\
      (statuses <> [] ->
       LineStatusPayload.tubeStatus p
       = Some (mapStatusSeverity (fold_left worst_step statuses 10))) /\
      (map statusSeverity statuses = [10; 9; 18; 3] ->
       LineStatusPayload.tubeStatus p = Some severe).
Proof.
  intros payload line rest this statuses severities.
  rewrite getTubeLineStatusData_line. fold statuses.
  eexists. split; [reflexivity |]. cbn [LineStatusPayload.tubeStatus].
  rewrite worstStatus_mapStatusSeverity.
  pose proof (worstSeverity_least statuses) as H. cbn zeta in H.
  fold severities in H.
  repeat split.
  - intro E. destruct H as [(_ & ->) | (Hin & _)]; [reflexivity |].
    rewrite E in Hin. destruct Hin.
  - intro N. destruct H as [(E & _) | (Hin & Hle)]; [contradiction |].
    exists (worstSeverity statuses). now repeat split.
  - intros E. unfold worstSeverity, severities, statuses in *.
    destruct (or_empty (lineStatuses line)) as [| a [| b [| c [| d [| e l]]]]];
      try discriminate.
    injection E as Ea Eb Ec Ed.
    unfold worstSeverity. cbn [fold_left].
    rewrite !worst_step_non_good, Ea, Eb, Ec, Ed. reflexivity.
Qed.

(** The sample line, with severities 10, 9, 18 and 3, is graded "severe". *)
Lemma aggregate_status_least_severity_witness :
  exists p,
    answer (getTubeLineStatusData "url" (Fulfilled [Some sample_line]) created)
    = Some p /\
    LineStatusPayload.tubeStatus p = Some severe.
Proof.
  destruct (aggregate_status_least_severity "url" sample_line [] created)
    as (p & A & _ & _ & _ & E).
  exists p. split; [exact A | apply E; reflexivity].
Defined.

Example sample_line_run :
  getTubeLineStatusData "url" (Fulfilled [Some sample_line]) created =
  (Normal tt,
   {| url := None; serviceURL := Some "url";
      result := None; tubeStatus := Some severe |},
   [SocketNotification
      (GOT_TUBE_LINE_STATUS
         {| LineStatusPayload.serviceURL := Some "url";
            LineStatusPayload.tubeStatus := Some severe;
            LineStatusPayload.tubeStatusDescription := Value "Good Service";
            LineStatusPayload.combinedMessages :=
              [ {| StandardizedMessage.text := Some "Delays";
                   StandardizedMessage.statusSeverity := 9;
                   StandardizedMessage.statusSeverityDescription :=
                     "Minor Delays";
                   StandardizedMessage.category := Some "";
                   StandardizedMessage.categoryDescription := Some "" |};
                {| StandardizedMessage.text := Some "Signal failure";
                   StandardizedMessage.statusSeverity := 0;
                   StandardizedMessage.statusSeverityDescription := "";
                   StandardizedMessage.category := Some "RealTime";
                   StandardizedMessage.categoryDescription :=
                     Some "RealTime" |} ] |})]).
Proof. reflexivity. Qed.

(** ** Deduplication *)

Lemma JsMap_has_app {V : Type} (m1 m2 : JsMap.t V) (k : JsString) :
  JsMap.has (m1 ++ m2) k = JsMap.has m1 k || JsMap.has m2 k.
Proof. unfold JsMap.has. apply existsb_app. Qed.

(** [set] on a key that is not there appends the entry. *)
Lemma JsMap_set_fresh {V : Type} (m : JsMap.t V) (k : JsString) (v : V) :
  JsMap.has m k = false -> JsMap.set m k v = m ++ [(k, v)].
Proof.
  induction m as [| (k', v') rest IH]; simpl; [reflexivity |].
  intro H. apply orb_false_iff in H as (H1 & H2).
  rewrite H1. now rewrite IH.
Qed.

Lemma JsMap_values_app {V : Type} (m1 m2 : JsMap.t V) :
  JsMap.values (m1 ++ m2) = JsMap.values m1 ++ JsMap.values m2.
Proof. unfold JsMap.values. apply map_app. Qed.

Lemma keys_are_texts_step (m : JsMap.t StandardizedMessage.t)
    (earlier : list StandardizedMessage.t) (message : StandardizedMessage.t) :
  keys_are_texts m earlier ->
  keys_are_texts (dedup_step m message) (earlier ++ [message]).
Proof.
  intros H k. unfold dedup_step. rewrite existsb_app. cbn [existsb].
  rewrite orb_false_r.
  set (t := StandardizedMessage.text message).
  destruct (JsString_eqb t k) eqn:E.
  - apply JsString_eqb_eq in E. subst k. rewrite orb_true_r, andb_true_r.
    destruct (truthy t) eqn:T; cbn [andb].
    + destruct (JsMap.has m t) eqn:M; cbn [negb]; [exact M |].
      rewrite JsMap_set_fresh by exact M. rewrite JsMap_has_app, M.
      cbn. now rewrite JsString_eqb_refl.
    + rewrite H, T. reflexivity.
  - rewrite orb_false_r.
    destruct (truthy t && negb (JsMap.has m t)) eqn:C; [| apply H].
    apply andb_true_iff in C as (_ & M). apply negb_true_iff in M.
    rewrite JsMap_set_fresh by exact M. rewrite JsMap_has_app, H.
    cbn. now rewrite E, !orb_false_r.
Qed.

Lemma dedup_step_values (m : JsMap.t StandardizedMessage.t)
    (earlier : list StandardizedMessage.t) (message : StandardizedMessage.t) :
  keys_are_texts m earlier ->
  JsMap.values (dedup_step m message)
  = JsMap.values m ++ first_occurrences earlier [message].
Proof.
  intro H. unfold dedup_step. cbn [first_occurrences]. rewrite app_nil_r.
  unfold same_text.
  pose proof (H (StandardizedMessage.text message)) as Ht.
  destruct (truthy (StandardizedMessage.text message)) eqn:T;
    cbn [andb] in *.
  - rewrite <- Ht.
    destruct (JsMap.has m (StandardizedMessage.text message)) eqn:M;
      cbn [negb].
    + now rewrite app_nil_r.
    + rewrite JsMap_set_fresh by exact M. now rewrite JsMap_values_app.
  - now rewrite app_nil_r.
Qed.

Lemma first_occurrences_cons (earlier : list StandardizedMessage.t)
    (m : StandardizedMessage.t) (rest : list StandardizedMessage.t) :
  first_occurrences earlier (m :: rest)
  = first_occurrences earlier [m] ++ first_occurrences (earlier ++ [m]) rest.
Proof. cbn [first_occurrences]. now rewrite app_nil_r. Qed.

Lemma dedup_fold (messages : list StandardizedMessage.t) :
  forall m earlier,
    keys_are_texts m earlier ->
    JsMap.values (fold_left dedup_step messages m)
    = JsMap.values m ++ first_occurrences earlier messages.
Proof.
  induction messages as [| message rest IH]; intros m earlier H.
  - simpl. now rewrite app_nil_r.
  - cbn [fold_left]. rewrite first_occurrences_cons, app_assoc.
    rewrite <- (dedup_step_values m earlier message H).
    apply IH. now apply keys_are_texts_step.
Qed.

Lemma combinedMessages_refines (messages : list StandardizedMessage.t) :
  combinedMessages messages = first_occurrences [] messages.
Proof.
  unfold combinedMessages, uniqueMessagesMap.
  rewrite (dedup_fold messages JsMap.empty []); [reflexivity |].
  intro k. cbn. now rewrite andb_false_r.
Qed.

Lemma existsb_same_text_false (earlier : list StandardizedMessage.t)
    (m : StandardizedMessage.t) :
  existsb (fun e => same_text e m) earlier = false <->
  forall e, In e earlier ->
            StandardizedMessage.text e <> StandardizedMessage.text m.
Proof.
  induction earlier as [| x l IH]; simpl.
  - split; [intros _ e [] | reflexivity].
  - rewrite orb_false_iff, IH. unfold same_text. rewrite JsString_eqb_neq.
    split.
    + intros (Hx & Hl) e [<- | He]; [exact Hx | now apply Hl].
    + intro H. split; [apply H; now left | intros e He; apply H; now right].
Qed.

(** A message that is kept has a non-empty text that no earlier one has. *)
Lemma first_occurrences_In (messages : list StandardizedMessage.t) :
  forall earlier kept,
    In kept (first_occurrences earlier messages) ->
    In kept messages /\
    truthy (StandardizedMessage.text kept) = true /\
    forall e, In e earlier ->
              StandardizedMessage.text e <> StandardizedMessage.text kept.
Proof.
  induction messages as [| m rest IH]; intros earlier kept H;
    cbn [first_occurrences] in H; [destruct H |].
  apply in_app_or in H as [H | H].
  - destruct (truthy (StandardizedMessage.text m)) eqn:T; cbn [andb] in H;
      [| destruct H].
    destruct (existsb (fun e => same_text e m) earlier) eqn:X; cbn [negb] in H;
      [destruct H |].
    destruct H as [<- | []]. repeat split; [now left | exact T |].
    now apply existsb_same_text_false.
  - apply IH in H as (Hin & T & Hne). repeat split; [now right | exact T |].
    intros e He. apply Hne. apply in_or_app. now left.
Qed.

Lemma first_occurrences_NoDup (messages : list StandardizedMessage.t) :
  forall earlier,
    NoDup (map StandardizedMessage.text (first_occurrences earlier messages)).
Proof.
  induction messages as [| m rest IH]; intro earlier; cbn [first_occurrences].
  - constructor.
  - destruct (truthy (StandardizedMessage.text m)
              && negb (existsb (fun e => same_text e m) earlier));
      [| apply IH].
    cbn [app map]. constructor; [| apply IH].
    intro H. apply in_map_iff in H as (kept & E & H).
    apply first_occurrences_In in H as (_ & _ & Hne).
    apply (Hne m); [apply in_or_app; right; now left | now symmetry].
Qed.

(** Every non-empty text of the list is the text of a message that is kept
    or of an earlier one. *)
Lemma first_occurrences_covers (messages : list StandardizedMessage.t) :
  forall earlier m,
    In m messages ->
    truthy (StandardizedMessage.text m) = true ->
    (exists e, In e earlier /\
               StandardizedMessage.text e = StandardizedMessage.text m) \/
    (exists kept, In kept (first_occurrences earlier messages) /\
                  StandardizedMessage.text kept = StandardizedMessage.text m).
Proof.
  induction messages as [| x rest IH]; intros earlier m Hin T; [destruct Hin |].
  cbn [first_occurrences]. destruct Hin as [-> | Hin].
  - rewrite T. cbn [andb].
    destruct (existsb (fun e => same_text e m) earlier) eqn:X; cbn [negb].
    + left. apply existsb_exists in X as (e & He & S).
      exists e. split; [exact He | now apply JsString_eqb_eq].
    + right. exists m. split; [now left | reflexivity].
  - destruct (IH (earlier ++ [x]) m Hin T) as [(e & He & E) | (k & Hk & E)].
    + apply in_app_or in He as [He | [<- | []]].
      * left. now exists e.
      * destruct (existsb (fun e0 => same_text e0 x) earlier) eqn:X.
        -- left. apply existsb_exists in X as (e0 & He0 & S).
           exists e0. split; [exact He0 |].
           apply JsString_eqb_eq in S. congruence.
        -- right. exists x. split; [| exact E].
           rewrite E, T. cbn. now left.
    + right. exists k. split; [apply in_or_app; now right | exact E].
Qed.

(** C3. The combined list keeps, in the order of the concatenated list,
    exactly the messages whose text is non-empty and occurs in no earlier
    message: one message per distinct non-empty text, its first occurrence.
    Texts A, B, A, C give the first, second and fourth message. *)
Theorem combinedMessages_first_occurrence :
  forall messages : list StandardizedMessage.t,
    combinedMessages messages = first_occurrences [] messages /\
    NoDup (map StandardizedMessage.text (combinedMessages messages)) /\
    (forall kept, In kept (combinedMessages messages) ->
                  In kept messages /\
                  truthy (StandardizedMessage.text kept) = true) /\
    (forall m, In m messages ->
               truthy (StandardizedMessage.text m) = true ->
               exists kept,
                 In kept (combinedMessages messages) /\
                 StandardizedMessage.text kept = StandardizedMessage.text m) /\
    (forall a b a' c,
        StandardizedMessage.text a = Some "A" ->
        StandardizedMessage.text b = Some "B" ->
        StandardizedMessage.text a' = Some "A" ->
        StandardizedMessage.text c = Some "C" ->
        messages = [a; b; a'; c] ->
        combinedMessages messages = [a; b; c]) /\
    (forall payload line rest this,
        messages = allMessages (or_empty (lineStatuses line))
                     (or_empty (disruptions line)) ->
        exists p,
          answer (getTubeLineStatusData payload
                    (Fulfilled (Some line :: rest)) this) = Some p /\
          LineStatusPayload.combinedMessages p = first_occurrences [] messages).
Proof.
  intro messages. rewrite combinedMessages_refines.
  split; [reflexivity |]. split; [apply first_occurrences_NoDup |].
  split; [| split; [| split]].
  - intros kept H. apply first_occurrences_In in H as (Hin & T & _). now split.
  - intros m Hin T.
    destruct (first_occurrences_covers messages [] m Hin T)
      as [(e & [] & _) | H]; exact H.
  - intros a b a' c Ea Eb Ea' Ec ->. cbn [first_occurrences app existsb].
    unfold same_text. rewrite Ea, Eb, Ea', Ec. reflexivity.
  - intros payload line rest this ->. rewrite getTubeLineStatusData_line.
    eexists. split; [reflexivity |]. cbn [LineStatusPayload.combinedMessages].
    apply combinedMessages_refines.
Qed.

(** Texts A, B, A, C: the second A goes. *)
Lemma combinedMessages_first_occurrence_witness :
  combinedMessages
    [sample_message "A" 1; sample_message "B" 2;
     sample_message "A" 3; sample_message "C" 4]
  = [sample_message "A" 1; sample_message "B" 2; sample_message "C" 4].
Proof.
  apply (proj1 (proj2 (proj2 (proj2 (proj2
           (combinedMessages_first_occurrence
              [sample_message "A" 1; sample_message "B" 2;
               sample_message "A" 3; sample_message "C" 4])))))
           (sample_message "A" 1) (sample_message "B" 2)
           (sample_message "A" 3) (sample_message "C" 4));
    reflexivity.
Defined.

(** ** The messages before deduplication *)

Lemma truthy_string_of (v : JsString) :
  truthy v = negb (string_of v =? "")%string.
Proof. destruct v; reflexivity. Qed.

Lemma js_or_empty (v : JsString) : js_or v (Some "") = Some (string_of v).
Proof.
  unfold js_or. destruct v as [s|]; simpl; [| reflexivity].
  destruct (String.eqb_spec s ""); simpl; congruence.
Qed.

Lemma status_has_message_spec (status : TFLLineStatus) :
  status_has_message status = Spec.status_qualifies status.
Proof.
  unfold status_has_message, Spec.status_qualifies.
  destruct (reason status) as [r|], (disruption status) as [d|]; simpl;
    rewrite ?truthy_string_of, ?orb_false_r; reflexivity.
Qed.

Lemma status_message_spec (status : TFLLineStatus) :
  status_has_message status = true ->
  status_message status = Spec.status_message status.
Proof.
  unfold status_has_message, status_message, Spec.status_message.
  intro H. f_equal.
  - destruct (reason status) as [r|] eqn:R; simpl in *.
    + destruct (String.eqb_spec r "") as [-> | N]; simpl in *.
      * rewrite (js_or_falsy (Some "")) by reflexivity.
        destruct (disruption status) as [d|]; simpl in *; [| discriminate].
        now apply js_or_truthy.
      * assert (truthy (Some r) = true) as T.
        { simpl. apply negb_true_iff. now apply String.eqb_neq. }
        now rewrite !js_or_truthy by (rewrite ?js_or_truthy; exact T).
    + rewrite (js_or_falsy None) by reflexivity.
      destruct (disruption status) as [d|]; simpl in *; [| discriminate].
      now apply js_or_truthy.
  - destruct (disruption status) as [d|]; simpl; [apply js_or_empty | reflexivity].
  - destruct (disruption status) as [d|]; simpl; [apply js_or_empty | reflexivity].
Qed.

Lemma disruption_message_spec (d : TFLDisruption) :
  disruption_message d = Spec.disruption_message d.
Proof.
  unfold disruption_message, Spec.disruption_message.
  now rewrite !js_or_empty.
Qed.

Lemma non_empty_string_of (v : JsString) :
  negb (string_of v =? "")%string = true <-> non_empty v.
Proof. rewrite <- truthy_string_of. apply truthy_spec. Qed.

Lemma status_qualifies_iff (status : TFLLineStatus) :
  Spec.status_qualifies status = true <->
  non_empty (reason status) \/
  exists d, disruption status = Some d /\ non_empty (description d).
Proof.
  rewrite <- status_has_message_spec. unfold status_has_message.
  rewrite orb_true_iff, truthy_spec. fold (non_empty (reason status)).
  split; intros [H | H]; try (now left); right.
  - destruct (disruption status) as [d|]; [| discriminate].
    exists d. split; [reflexivity | now apply truthy_spec].
  - destruct H as (d & -> & H). now apply truthy_spec.
Qed.

(** C4. Before deduplication the list holds one message per LineStatus
    entry with a non-empty reason or a nested disruption with a non-empty
    description (text: the reason if present, else that description;
    category and categoryDescription of the nested disruption if present,
    else empty; severity and description of the entry), followed by one
    message per top-level disruption with a non-empty description (text: the
    description; severity 0 and an empty severity description; category and
    categoryDescription of the disruption).  A status with reason "Delays"
    and a disruption described as "Signal failure" give those two texts in
    that order. *)
Theorem allMessages_statuses_then_disruptions :
  forall (lineStatuses : list TFLLineStatus) (disruptions : list TFLDisruption),
    allMessages lineStatuses disruptions
    = map Spec.status_message (filter Spec.status_qualifies lineStatuses)
      ++ map Spec.disruption_message
           (filter Spec.disruption_qualifies disruptions) /\
    (forall status,
        Spec.status_qualifies status = true <->
        non_empty (reason status) \/
        exists d, disruption status = Some d /\ non_empty (description d)) /\
    (forall d,
        Spec.disruption_qualifies d = true <-> non_empty (description d)) /\
    (forall status d,
        lineStatuses = [status] -> disruptions = [d] ->
        reason status = Some "Delays" -> disruption status = None ->
        description d = Some "Signal failure" ->
        map StandardizedMessage.text (allMessages lineStatuses disruptions)
        = [Some "Delays"; Some "Signal failure"]).
Proof.
  intros sts ds. split; [| split; [| split]].
  - unfold allMessages, messagesFromStatuses, messagesFromDisruptions. f_equal.
    + rewrite (filter_ext _ _ status_has_message_spec).
      apply map_ext_in. intros status H. apply filter_In in H as (_ & H).
      apply status_message_spec. now rewrite status_has_message_spec.
    + rewrite (filter_ext disruption_has_message Spec.disruption_qualifies).
      * apply map_ext. exact disruption_message_spec.
      * intro d. apply truthy_string_of.
  - exact status_qualifies_iff.
  - intro d. apply non_empty_string_of.
  - intros status d -> -> R D E.
    unfold allMessages, messagesFromStatuses, messagesFromDisruptions.
    cbn [filter]. unfold status_has_message, disruption_has_message.
    rewrite R, E. cbn. unfold js_or. rewrite R, D, E. reflexivity.
Qed.

(** A status with reason "Delays", then the disruption "Signal failure". *)
Lemma allMessages_statuses_then_disruptions_witness :
  map StandardizedMessage.text
    (allMessages [sample_status 9 "Minor Delays" (Some "Delays")]
       [signal_failure])
  = [Some "Delays"; Some "Signal failure"].
Proof.
  apply (proj2 (proj2 (proj2
           (allMessages_statuses_then_disruptions
              [sample_status 9 "Minor Delays" (Some "Delays")]
              [signal_failure])))
           (sample_status 9 "Minor Delays" (Some "Delays")) signal_failure);
    reflexivity.
Defined.

(** ** Failures of the line-status request *)

(** The handler throws exactly on an array whose first entry is null: no
    other response reaches the [catch] handler. *)
Lemma failed_iff_first_entry_null (data : list (option TFLLine)) :
  failed (Fulfilled data) <-> exists rest, data = None :: rest.
Proof.
  split.
  - intros (this & error & F).
    now apply getTubeLineStatusData_then_throws in F as (H & _).
  - intros (rest & ->). exists created. eexists.
    rewrite getTubeLineStatusData_then_null. reflexivity.
Qed.

(** The rule for failures does not hold for every malformed response: a
    response whose line has neither array is not what the typedefs declare,
    yet the handler does not throw on it.  After a "warning" it is answered
    with "good" and a null description, and "good" replaces the last known
    status. *)
Lemma malformed_response_answered_as_success :
  rejected_or_malformed (Fulfilled [Some bare_line]) /\
  getTubeLineStatusData_settled (Fulfilled [Some bare_line]) after_warning
  = (Normal tt,
     {| url := None; serviceURL := Some "earlier";
        result := None; tubeStatus := Some good |},
     [SocketNotification
        (GOT_TUBE_LINE_STATUS
           {| LineStatusPayload.serviceURL := Some "earlier";
              LineStatusPayload.tubeStatus := Some good;
              LineStatusPayload.tubeStatusDescription := Null;
              LineStatusPayload.combinedMessages := [] |})]) /\
  ~ failure_answer_rule (Fulfilled [Some bare_line]).
Proof.
  split; [reflexivity |]. split; [reflexivity |].
  intro H. destruct (H eq_refl after_warning) as (_ & N).
  cbv in N. discriminate N.
Qed.

(** C5, amended. A line-status request that reaches the [catch] handler
    (axios rejects, or the [then] handler throws on the response, which it
    does on a null first entry) completes normally and sends one
    notification: the status is the last known status when there is one and
    "good" otherwise, the list of messages is empty and the description is
    left out.  This holds for the handlers on any object they find when the
    request settles, and so for a request and its settlement run in one
    go. *)
Theorem failed_line_status_answer :
  forall (settled : Settled (list (option TFLLine))),
    failed settled ->
    (forall this : NodeHelper,
        let run := getTubeLineStatusData_settled settled this in
        completion run = Normal tt /\
        notifications (emitted run)
        = [GOT_TUBE_LINE_STATUS
             {| LineStatusPayload.serviceURL := serviceURL this;
                LineStatusPayload.tubeStatus :=
                  Some match tubeStatus this with
                       | Some lastKnownStatus => lastKnownStatus
                       | None => good
                       end;
                LineStatusPayload.tubeStatusDescription := Omitted;
                LineStatusPayload.combinedMessages := [] |}]) /\
    (forall (payload : string) (this : NodeHelper),
        let run := getTubeLineStatusData payload settled this in
        completion run = Normal tt /\
        notifications (emitted run)
        = [GOT_TUBE_LINE_STATUS
             {| LineStatusPayload.serviceURL := Some payload;
                LineStatusPayload.tubeStatus :=
                  Some match tubeStatus this with
                       | Some lastKnownStatus => lastKnownStatus
                       | None => good
                       end;
                LineStatusPayload.tubeStatusDescription := Omitted;
                LineStatusPayload.combinedMessages := [] |}]).
Proof.
  intros settled F.
  assert (forall this : NodeHelper,
             let run := getTubeLineStatusData_settled settled this in
             completion run = Normal tt /\
             notifications (emitted run)
             = [GOT_TUBE_LINE_STATUS
                  {| LineStatusPayload.serviceURL := serviceURL this;
                     LineStatusPayload.tubeStatus :=
                       Some (tubeStatus_or_good (tubeStatus this));
                     LineStatusPayload.tubeStatusDescription := Omitted;
                     LineStatusPayload.combinedMessages := [] |}]) as H.
  { intros this run.
    destruct (getTubeLineStatusData_failed settled this F) as (error & E).
    unfold run. rewrite E, getTubeLineStatusData_catch_run.
    split; reflexivity. }
  split.
  - exact H.
  - intros payload this run. unfold run.
    rewrite getTubeLineStatusData_request. apply H.
Qed.

(** A response whose first entry is null, after a line was graded
    "warning": the answer says "warning". *)
Lemma failed_line_status_answer_witness :
  failed (Fulfilled [None]) /\
  notifications
    (emitted (getTubeLineStatusData "url" (Fulfilled [None]) after_warning))
  = [GOT_TUBE_LINE_STATUS
       {| LineStatusPayload.serviceURL := Some "url";
          LineStatusPayload.tubeStatus := Some warning;
          LineStatusPayload.tubeStatusDescription := Omitted;
          LineStatusPayload.combinedMessages := [] |}].
Proof.
  assert (failed (Fulfilled [None])) as F.
  { exists created. eexists. reflexivity. }
  split; [exact F |].
  exact (proj2 (proj2 (failed_line_status_answer (Fulfilled [None]) F)
                  "url" after_warning)).
Defined.

Example rejected_before_any_status :
  notifications
    (emitted (getTubeLineStatusData "url"
                (Rejected (AxiosError "Network Error")) created))
  = [GOT_TUBE_LINE_STATUS
       {| LineStatusPayload.serviceURL := Some "url";
          LineStatusPayload.tubeStatus := Some good;
          LineStatusPayload.tubeStatusDescription := Omitted;
          LineStatusPayload.combinedMessages := [] |}].
Proof. reflexivity. Qed.

(** C6. A response whose array is empty is handled without the [catch]
    handler: the status is "good", the list of messages is empty, nothing is
    logged as an error and the description is left out. *)
Theorem empty_response_is_good :
  forall (payload : string) (this : NodeHelper),
    getTubeLineStatusData payload (Fulfilled []) this =
    (Normal tt,
     {| url := url this; serviceURL := Some payload;
        result := result this; tubeStatus := Some good |},
     [SocketNotification
        (GOT_TUBE_LINE_STATUS
           {| LineStatusPayload.serviceURL := Some payload;
              LineStatusPayload.tubeStatus := Some good;
              LineStatusPayload.tubeStatusDescription := Omitted;
              LineStatusPayload.combinedMessages := [] |})]) /\
    ~ failed (Fulfilled []).
Proof.
  intros payload this. split; [reflexivity |].
  intros (this0 & error & F). discriminate F.
Qed.

(** ** The description sent with the status *)

(** The rule does not hold for every successful response: for an empty
    array the request succeeds with status "good" and the description is
    left out of the payload, which is not null. *)
Lemma description_rule_fails_on_empty_response :
  ~ failed (Fulfilled []) /\
  answer (getTubeLineStatusData "url" (Fulfilled []) created)
  = Some {| LineStatusPayload.serviceURL := Some "url";
            LineStatusPayload.tubeStatus := Some good;
            LineStatusPayload.tubeStatusDescription := Omitted;
            LineStatusPayload.combinedMessages := [] |} /\
  ~ description_rule [].
Proof.
  split; [| split].
  - intros (this0 & error & F). discriminate F.
  - reflexivity.
  - intro H. destruct (H "url" created) as (p & A & _ & G).
    cbv in A. injection A as <-. specialize (G eq_refl). discriminate G.
Qed.

(** C7, amended. For a successful response whose array is not empty, the
    description sent is the severityDescription of the first LineStatus
    entry when the status is not "good", and null when it is "good". *)
Theorem description_of_first_status :
  forall data : list (option TFLLine),
    data <> [] -> ~ failed (Fulfilled data) -> description_rule data.
Proof.
  intros data N S payload this.
  destruct data as [| [line |] rest]; [contradiction | |].
  2: { exfalso. apply S. exists created. eexists.
       rewrite getTubeLineStatusData_then_null. reflexivity. }
  rewrite getTubeLineStatusData_line. eexists. split; [reflexivity |].
  cbn [LineStatusPayload.tubeStatus LineStatusPayload.tubeStatusDescription].
  unfold description_sent, first_line_status. cbn [index nth_error].
  split.
  - intro G. destruct (or_empty (lineStatuses line)) as [| first more] eqn:E.
    + exfalso. apply G. reflexivity.
    + exists first. split; [reflexivity |].
      destruct (worstStatus (first :: more)); [now contradiction G | |];
        reflexivity.
  - intros [= ->]. reflexivity.
Qed.

(** The sample line is graded "severe" by its fourth entry and described
    by its first. *)
Lemma description_of_first_status_witness :
  [Some sample_line] <> [] /\
  ~ failed (Fulfilled [Some sample_line]) /\
  exists p,
    answer (getTubeLineStatusData "url" (Fulfilled [Some sample_line]) created)
    = Some p /\
    LineStatusPayload.tubeStatus p = Some severe /\
    LineStatusPayload.tubeStatusDescription p = Value "Good Service".
Proof.
  assert ([Some sample_line] <> []) as N by discriminate.
  assert (~ failed (Fulfilled [Some sample_line])) as S.
  { intros (this0 & error & F).
    rewrite getTubeLineStatusData_then_line in F. discriminate F. }
  split; [exact N |]. split; [exact S |].
  destruct (description_of_first_status [Some sample_line] N S "url" created)
    as (p & A & D & _).
  exists p. split; [exact A |].
  assert (LineStatusPayload.tubeStatus p = Some severe) as T.
  { cbv in A. injection A as <-. reflexivity. }
  split; [exact T |].
  destruct D as (first & E & ->).
  - rewrite T. discriminate.
  - cbv in E. injection E as <-. reflexivity.
Defined.

(** ** The arrivals request *)

(** The rule for failed arrivals requests does not hold for a malformed
    body that axios fulfils the request with: the [then] handler stores and
    sends it like an array, and logs nothing. *)
Lemma malformed_body_is_forwarded :
  rejected_or_malformed_body (Fulfilled (OtherBody "<html>")) /\
  getTubeStatusData "url" (Fulfilled (OtherBody "<html>")) created
  = (Normal tt,
     {| url := Some "url"; serviceURL := None;
        result := Some (OtherBody "<html>"); tubeStatus := None |},
     [SocketNotification
        (GOT_TUBE_TIMES
           {| TubeTimesPayload.url := Some "url";
              TubeTimesPayload.result := Some (OtherBody "<html>") |})]) /\
  ~ null_result_rule (Fulfilled (OtherBody "<html>")).
Proof.
  split; [exact I |]. split; [reflexivity |].
  intro H. specialize (H I created). cbv in H. discriminate H.
Qed.

(** C8, amended. A fulfilled arrivals request sends [response.data] as it
    is, whatever it holds; a rejected one (network error, status outside
    2xx) sends null and logs the error.  Both complete normally. *)
Theorem arrivals_verbatim_or_null :
  forall (payload : string) (this : NodeHelper),
    (forall data : ArrivalsData,
        getTubeStatusData payload (Fulfilled data) this =
        (Normal tt,
         {| url := Some payload; serviceURL := serviceURL this;
            result := Some data; tubeStatus := tubeStatus this |},
         [SocketNotification
            (GOT_TUBE_TIMES
               {| TubeTimesPayload.url := Some payload;
                  TubeTimesPayload.result := Some data |})])) /\
    (forall error : JsError,
        getTubeStatusData payload (Rejected error) this =
        (Normal tt,
         {| url := Some payload; serviceURL := serviceURL this;
            result := None; tubeStatus := tubeStatus this |},
         [ConsoleError "[MMM-TubeTimes] Error fetching tube status:"
            (message_or_error error);
          SocketNotification
            (GOT_TUBE_TIMES
               {| TubeTimesPayload.url := Some payload;
                  TubeTimesPayload.result := None |})])).
Proof. intros payload this. split; intros; reflexivity. Qed.

(** ** What a failure leaves behind *)

(** C9. The [catch] handler of the line-status request sets the field
    [result], which holds the arrivals of the other request, to null and
    leaves [url], [serviceURL] and [tubeStatus] as they are; so do the
    handlers of a failed request on any object they find.  A request and its
    failure run in one go change [serviceURL], which the call sets to the URL
    requested, and [result]; arrivals stored by an earlier arrivals
    request are gone. *)
Theorem failure_resets_result_only :
  forall (settled : Settled (list (option TFLLine))),
    failed settled ->
    (forall error this,
        after (getTubeLineStatusData_catch error this)
        = {| url := url this; serviceURL := serviceURL this;
             result := None; tubeStatus := tubeStatus this |}) /\
    (forall this,
        after (getTubeLineStatusData_settled settled this)
        = {| url := url this; serviceURL := serviceURL this;
             result := None; tubeStatus := tubeStatus this |}) /\
    (forall payload this,
        after (getTubeLineStatusData payload settled this)
        = {| url := url this; serviceURL := Some payload;
             result := None; tubeStatus := tubeStatus this |}) /\
    (forall arrivalsURL arrivals payload this,
        let stored :=
          after (getTubeStatusData arrivalsURL (Fulfilled arrivals) this) in
        result stored = Some arrivals /\
        result (after (getTubeLineStatusData payload settled stored)) = None).
Proof.
  intros settled F. split; [reflexivity |].
  assert (forall this,
             after (getTubeLineStatusData_settled settled this)
             = {| url := url this; serviceURL := serviceURL this;
                  result := None; tubeStatus := tubeStatus this |}) as H.
  { intro this.
    destruct (getTubeLineStatusData_failed settled this F) as (error & ->).
    reflexivity. }
  split; [exact H |]. split.
  - intros payload this. rewrite getTubeLineStatusData_request, H. reflexivity.
  - intros arrivalsURL arrivals payload this stored. split; [reflexivity |].
    rewrite getTubeLineStatusData_request, H. reflexivity.
Qed.

(** Arrivals are stored, then a line-status request is rejected. *)
Lemma failure_resets_result_only_witness :
  failed (Rejected (AxiosError "Network Error")) /\
  result
    (after (getTubeLineStatusData "status"
              (Rejected (AxiosError "Network Error"))
              (after (getTubeStatusData "arrivals" (Fulfilled (TFLArrivals [])) created))))
  = None /\
  result (after (getTubeStatusData "arrivals" (Fulfilled (TFLArrivals [])) created))
  = Some (TFLArrivals []).
Proof.
  assert (failed (Rejected (AxiosError "Network Error"))) as F by exact I.
  split; [exact F |].
  destruct (proj2 (proj2 (proj2
              (failure_resets_result_only
                 (Rejected (AxiosError "Network Error")) F)))
              "arrivals" (TFLArrivals []) "status" created)
    as (Stored & Gone).
  split; [exact Gone | exact Stored].
Defined.

(** ** Missing arrays *)

(** C10. A first line without [lineStatuses] or without [disruptions] is
    handled as one whose array is empty, by the [then] handler and without
    a throw; without both, the status is "good", the description null and
    the list of messages empty. *)
Theorem missing_arrays_are_empty :
  forall (payload : string) (rest : list (option TFLLine)) (this : NodeHelper),
    let run line :=
      getTubeLineStatusData payload (Fulfilled (Some line :: rest)) this in
    (forall ds,
        run {| disruptions := ds; lineStatuses := None |}
        = run {| disruptions := ds; lineStatuses := Some [] |}) /\
    (forall ls,
        run {| disruptions := None; lineStatuses := ls |}
        = run {| disruptions := Some []; lineStatuses := ls |}) /\
    (forall line,
        completion (run line) = Normal tt /\
        ~ failed (Fulfilled (Some line :: rest)) /\
        exists p, emitted (run line) = [SocketNotification (GOT_TUBE_LINE_STATUS p)]) /\
    emitted (run {| disruptions := None; lineStatuses := None |})
    = [SocketNotification
         (GOT_TUBE_LINE_STATUS
            {| LineStatusPayload.serviceURL := Some payload;
               LineStatusPayload.tubeStatus := Some good;
               LineStatusPayload.tubeStatusDescription := Null;
               LineStatusPayload.combinedMessages := [] |})].
Proof.
  intros payload rest this run. unfold run.
  split; [| split; [| split]].
  - intro ds. now rewrite !getTubeLineStatusData_line.
  - intro ls. now rewrite !getTubeLineStatusData_line.
  - intro line. rewrite getTubeLineStatusData_line. split; [reflexivity |].
    split.
    + intros (this0 & error & F).
      rewrite getTubeLineStatusData_then_line in F. discriminate F.
    + eexists. reflexivity.
  - reflexivity.
Qed.

(** * Further properties *)

(** ** Settlements *)

(** A settlement either fails, and then the [catch] handler alone acts on
    the object, or it does not, and then the [then] handler alone does,
    without a throw and without a logged error. *)
Lemma getTubeLineStatusData_settled_cases
    (settled : Settled (list (option TFLLine))) (this : NodeHelper) :
  (failed settled /\
   exists error,
     getTubeLineStatusData_settled settled this
     = getTubeLineStatusData_catch error this) \/
  (~ failed settled /\
   exists s d ms,
     getTubeLineStatusData_settled settled this
     = (Normal tt,
        {| url := url this; serviceURL := serviceURL this;
           result := result this; tubeStatus := Some s |},
        [SocketNotification
           (GOT_TUBE_LINE_STATUS
              {| LineStatusPayload.serviceURL := serviceURL this;
                 LineStatusPayload.tubeStatus := Some s;
                 LineStatusPayload.tubeStatusDescription := d;
                 LineStatusPayload.combinedMessages := ms |})])).
Proof.
  destruct settled as [[| [line |] rest] | error].
  - right. split.
    + intros (this0 & error & F). discriminate F.
    + do 3 eexists. reflexivity.
  - right. split.
    + intros (this0 & error & F).
      rewrite getTubeLineStatusData_then_line in F. discriminate F.
    + do 3 eexists. unfold getTubeLineStatusData_settled, then_catch.
      rewrite getTubeLineStatusData_then_line. reflexivity.
  - left. assert (failed (Fulfilled (None :: rest))) as F.
    { exists this. eexists. rewrite getTubeLineStatusData_then_null.
      reflexivity. }
    split; [exact F | now apply getTubeLineStatusData_failed].
  - left. split; [exact I | now apply getTubeLineStatusData_failed].
Qed.

(** X2. Whatever the response or the error, and whatever the object holds,
    the handlers of a line-status request complete normally and send exactly
    one "GOT-TUBE-LINE-STATUS" notification; it carries the serviceURL the
    object holds at that moment and a status, and the status is the one a
    failure right afterwards would fall back on. *)
Theorem line_status_settles_with_one_answer :
  forall (settled : Settled (list (option TFLLine))) (this : NodeHelper),
    let run := getTubeLineStatusData_settled settled this in
    exists p,
      completion run = Normal tt /\
      notifications (emitted run) = [GOT_TUBE_LINE_STATUS p] /\
      LineStatusPayload.serviceURL p = serviceURL this /\
      LineStatusPayload.tubeStatus p
      = Some match tubeStatus (after run) with
             | Some stored => stored
             | None => good
             end.
Proof.
  intros settled this run. unfold run.
  destruct (getTubeLineStatusData_settled_cases settled this)
    as [(_ & error & ->) | (_ & s & d & ms & ->)].
  - rewrite getTubeLineStatusData_catch_run. eexists.
    repeat split; reflexivity.
  - eexists. repeat split; reflexivity.
Qed.

(** ** Sequences of turns *)

Lemma notifications_app (out1 out2 : list Event) :
  notifications (out1 ++ out2) = notifications out1 ++ notifications out2.
Proof.
  induction out1 as [| [n | line | label arg] rest IH]; simpl;
    [reflexivity | now rewrite IH | exact IH | exact IH].
Qed.

Lemma turn_normal (t : Turn) (this : NodeHelper) :
  completion (turn t this) = Normal tt.
Proof.
  destruct t as [| notification payload | settled | settled]; cbn [turn].
  - reflexivity.
  - unfold socketNotificationReceived_call.
    destruct (notification =? "GET-TUBE-STATUS")%string,
             (notification =? "GET-TUBE-LINE-STATUS")%string; reflexivity.
  - destruct settled; reflexivity.
  - destruct (getTubeLineStatusData_settled_cases settled this)
      as [(_ & error & ->) | (_ & s & d & ms & ->)]; reflexivity.
Qed.

Lemma turn_answers (t : Turn) (this : NodeHelper) :
  map kind_of (notifications (emitted (turn t this))) = settlements [t].
Proof.
  destruct t as [| notification payload | settled | settled]; cbn [turn].
  - reflexivity.
  - unfold socketNotificationReceived_call.
    destruct (notification =? "GET-TUBE-STATUS")%string,
             (notification =? "GET-TUBE-LINE-STATUS")%string; reflexivity.
  - destruct settled; reflexivity.
  - destruct (getTubeLineStatusData_settled_cases settled this)
      as [(_ & error & ->) | (_ & s & d & ms & ->)]; reflexivity.
Qed.

(** A sequence of turns runs its first turn, then the others on the object
    the first one leaves. *)
Lemma turns_cons (t : Turn) (rest : list Turn) (this : NodeHelper) :
  turns (t :: rest) this =
  (completion (turns rest (after (turn t this))),
   after (turns rest (after (turn t this))),
   emitted (turn t this) ++ emitted (turns rest (after (turn t this)))).
Proof.
  cbn [turns]. unfold bind. pose proof (turn_normal t this) as N.
  destruct (turn t this) as ((c & this1) & out1). cbn in N. subst c.
  unfold completion, after, emitted. cbn [fst snd].
  now destruct (turns rest this1) as ((c2 & this2) & out2).
Qed.

Lemma after_turns_app (ts1 ts2 : list Turn) (this : NodeHelper) :
  after (turns (ts1 ++ ts2) this) = after (turns ts2 (after (turns ts1 this))).
Proof.
  revert this. induction ts1 as [| t rest IH]; intro this; [reflexivity |].
  cbn [app]. rewrite !turns_cons. unfold after at 1 3. cbn [fst snd].
  apply IH.
Qed.

(** X3. Any sequence of turns, from any object, completes normally, and it
    sends one notification per settlement, in the order of the settlements
    and of the kind of each: "GOT-TUBE-TIMES" for an arrivals request,
    "GOT-TUBE-LINE-STATUS" for a line-status request.  [start] and the
    receipt of a notification send nothing. *)
Theorem one_answer_per_settlement :
  forall (ts : list Turn) (this : NodeHelper),
    completion (turns ts this) = Normal tt /\
    map kind_of (notifications (emitted (turns ts this))) = settlements ts.
Proof.
  induction ts as [| t rest IH]; intro this; [split; reflexivity |].
  rewrite turns_cons. destruct (IH (after (turn t this))) as (C & K).
  split; [exact C |].
  unfold emitted at 1. cbn [snd]. rewrite notifications_app, map_app, K.
  rewrite turn_answers. unfold settlements. cbn [flat_map].
  now rewrite app_nil_r.
Qed.

(** ** The URL an answer carries *)

Lemma last_received_cons (name : string) (t : Turn) (rest : list Turn)
    (before : option string) :
  last_received name (t :: rest) before
  = last_received name rest (last_received name [t] before).
Proof. reflexivity. Qed.

Lemma turn_url (t : Turn) (this : NodeHelper) :
  url (after (turn t this)) = last_received "GET-TUBE-STATUS" [t] (url this).
Proof.
  destruct t as [| notification payload | settled | settled];
    cbn [turn last_received fold_left].
  - reflexivity.
  - unfold socketNotificationReceived_call.
    destruct (String.eqb_spec notification "GET-TUBE-STATUS") as [-> | N];
      [reflexivity |].
    destruct (notification =? "GET-TUBE-LINE-STATUS")%string; reflexivity.
  - destruct settled; reflexivity.
  - destruct (getTubeLineStatusData_settled_cases settled this)
      as [(_ & error & ->) | (_ & s & d & ms & ->)]; reflexivity.
Qed.

Lemma turn_serviceURL (t : Turn) (this : NodeHelper) :
  serviceURL (after (turn t this))
  = last_received "GET-TUBE-LINE-STATUS" [t] (serviceURL this).
Proof.
  destruct t as [| notification payload | settled | settled];
    cbn [turn last_received fold_left].
  - reflexivity.
  - unfold socketNotificationReceived_call.
    destruct (String.eqb_spec notification "GET-TUBE-STATUS") as [-> | N];
      [reflexivity |].
    destruct (notification =? "GET-TUBE-LINE-STATUS")%string; reflexivity.
  - destruct settled; reflexivity.
  - destruct (getTubeLineStatusData_settled_cases settled this)
      as [(_ & error & ->) | (_ & s & d & ms & ->)]; reflexivity.
Qed.

Lemma turns_url (ts : list Turn) (this : NodeHelper) :
  url (after (turns ts this)) = last_received "GET-TUBE-STATUS" ts (url this).
Proof.
  revert this. induction ts as [| t rest IH]; intro this; [reflexivity |].
  rewrite turns_cons, last_received_cons, <- turn_url, <- IH. reflexivity.
Qed.

Lemma turns_serviceURL (ts : list Turn) (this : NodeHelper) :
  serviceURL (after (turns ts this))
  = last_received "GET-TUBE-LINE-STATUS" ts (serviceURL this).
Proof.
  revert this. induction ts as [| t rest IH]; intro this; [reflexivity |].
  rewrite turns_cons, last_received_cons, <- turn_serviceURL, <- IH.
  reflexivity.
Qed.

(** X4. The URL in an answer is the one of the request of that kind that was
    received last before the settlement, not the one of the request that
    settled: after any turns, a line-status settlement answers with the
    payload of the last "GET-TUBE-LINE-STATUS" received, and an arrivals
    settlement with that of the last "GET-TUBE-STATUS".  When a second
    request is received before the first one settles, the answer to the
    first carries the URL of the second. *)
Theorem answer_carries_latest_url :
  forall (ts : list Turn) (this : NodeHelper),
    (forall settled,
        exists p,
          notifications
            (emitted (getTubeLineStatusData_settled settled
                        (after (turns ts this))))
          = [GOT_TUBE_LINE_STATUS p] /\
          LineStatusPayload.serviceURL p
          = last_received "GET-TUBE-LINE-STATUS" ts (serviceURL this)) /\
    (forall settled,
        exists p,
          notifications
            (emitted (getTubeStatusData_settled settled
                        (after (turns ts this))))
          = [GOT_TUBE_TIMES p] /\
          TubeTimesPayload.url p
          = last_received "GET-TUBE-STATUS" ts (url this)) /\
    (forall first second settled,
        exists p,
          notifications
            (emitted
               (turns
                  (ts ++ [Received "GET-TUBE-LINE-STATUS" first;
                          Received "GET-TUBE-LINE-STATUS" second;
                          LineStatusSettled settled]) this))
          = notifications (emitted (turns ts this))
            ++ [GOT_TUBE_LINE_STATUS p] /\
          LineStatusPayload.serviceURL p = Some second).
Proof.
  intros ts this. split; [| split].
  - intro settled.
    destruct (getTubeLineStatusData_settled_cases settled
                (after (turns ts this)))
      as [(_ & error & ->) | (_ & s & d & ms & ->)];
      [rewrite getTubeLineStatusData_catch_run |];
      eexists; (split; [reflexivity |]); apply turns_serviceURL.
  - intro settled. destruct settled as [data | error];
      eexists; (split; [reflexivity |]); apply turns_url.
  - intros first second settled. revert this.
    induction ts as [| t rest IH]; intro this.
    + cbn [app]. rewrite !turns_cons. cbn [turn].
      unfold emitted at 1 2 3. cbn [snd].
      set (this2 := after (socketNotificationReceived_call _ second _)).
      assert (serviceURL this2 = Some second) as U by reflexivity.
      destruct (getTubeLineStatusData_settled_cases settled this2)
        as [(_ & error & ->) | (_ & s & d & ms & ->)];
        [rewrite getTubeLineStatusData_catch_run |];
        eexists; (split; [reflexivity |]); exact U.
    + destruct (IH (after (turn t this))) as (p & N & U).
      exists p. split; [| exact U].
      cbn [app]. rewrite !turns_cons. unfold emitted at 1 4. cbn [snd].
      now rewrite !notifications_app, N, app_assoc.
Qed.

(** ** What each turn may change *)

(** X12. A turn changes [url] only when it is the receipt of
    "GET-TUBE-STATUS", [serviceURL] only when it is the receipt of
    "GET-TUBE-LINE-STATUS", [tubeStatus] only when it is a line-status
    settlement that does not fail, and [result] only when it is [start], an
    arrivals settlement or a line-status settlement that fails. *)
Theorem turn_frame :
  forall (t : Turn) (this : NodeHelper),
    let this' := after (turn t this) in
    (url this' <> url this ->
     exists payload, t = Received "GET-TUBE-STATUS" payload) /\
    (serviceURL this' <> serviceURL this ->
     exists payload, t = Received "GET-TUBE-LINE-STATUS" payload) /\
    (tubeStatus this' <> tubeStatus this ->
     exists settled, t = LineStatusSettled settled /\ ~ failed settled) /\
    (result this' <> result this ->
     t = Started \/
     (exists settled, t = ArrivalsSettled settled) \/
     (exists settled, t = LineStatusSettled settled /\ failed settled)).
Proof.
  intros t this this'. unfold this'.
  destruct t as [| notification payload | settled | settled]; cbn [turn].
  - repeat split; intro H; try (now contradiction H). now left.
  - unfold socketNotificationReceived_call.
    destruct (String.eqb_spec notification "GET-TUBE-STATUS") as [-> | N1].
    + repeat split; intro H; try (now contradiction H). now exists payload.
    + destruct (String.eqb_spec notification "GET-TUBE-LINE-STATUS")
        as [-> | N2];
        repeat split; intro H; try (now contradiction H). now exists payload.
  - destruct settled; repeat split; intro H; try (now contradiction H);
      right; left; eexists; reflexivity.
  - destruct (getTubeLineStatusData_settled_cases settled this)
      as [(F & error & ->) | (F & s & d & ms & ->)];
      repeat split; intro H; try (now contradiction H).
    + right. right. now exists settled.
    + now exists settled.
Qed.

(** ** The last known status *)

Lemma turn_keeps_status (t : Turn) (this : NodeHelper) :
  keeps_status t -> tubeStatus (after (turn t this)) = tubeStatus this.
Proof.
  destruct t as [| notification payload | settled | settled];
    cbn [turn keeps_status]; intro K.
  - reflexivity.
  - unfold socketNotificationReceived_call.
    destruct (notification =? "GET-TUBE-STATUS")%string,
             (notification =? "GET-TUBE-LINE-STATUS")%string; reflexivity.
  - destruct settled; reflexivity.
  - destruct (getTubeLineStatusData_failed settled this K) as (error & ->).
    reflexivity.
Qed.

Lemma turns_keep_status (ts : list Turn) (this : NodeHelper) :
  Forall keeps_status ts ->
  tubeStatus (after (turns ts this)) = tubeStatus this.
Proof.
  intro K. revert this. induction K as [| t rest Kt _ IH]; intro this;
    [reflexivity |].
  rewrite turns_cons. unfold after at 1. cbn [fst snd].
  now rewrite IH, turn_keeps_status.
Qed.

(** X5. The status of a line-status answer is remembered until the next
    line-status request that does not fail: after an answer, whatever it
    was, and any turns among which every line-status settlement fails, a
    failing line-status request answers with the status of that answer. *)
Theorem failure_repeats_last_answer :
  forall (settled failing : Settled (list (option TFLLine)))
         (ts : list Turn) (this : NodeHelper),
    Forall keeps_status ts ->
    failed failing ->
    let first := getTubeLineStatusData_settled settled this in
    let later :=
      getTubeLineStatusData_settled failing
        (after (turns ts (after first))) in
    exists p q,
      answer first = Some p /\
      answer later = Some q /\
      LineStatusPayload.tubeStatus q = LineStatusPayload.tubeStatus p.
Proof.
  intros settled failing ts this K F first later.
  assert (exists p,
             answer first = Some p /\
             LineStatusPayload.tubeStatus p
             = Some (tubeStatus_or_good (tubeStatus (after first)))) as (p & A & S).
  { unfold first.
    destruct (getTubeLineStatusData_settled_cases settled this)
      as [(_ & error & ->) | (_ & s & d & ms & ->)];
      [rewrite getTubeLineStatusData_catch_run |];
      eexists; split; reflexivity. }
  exists p. unfold later.
  destruct (getTubeLineStatusData_failed failing
              (after (turns ts (after first))) F) as (error & ->).
  rewrite getTubeLineStatusData_catch_run. eexists.
  split; [exact A |]. split; [reflexivity |].
  cbn [LineStatusPayload.tubeStatus]. rewrite turns_keep_status by exact K.
  now rewrite S.
Qed.

(** A line graded "severe", arrivals fetched and a new request received,
    then a rejection: the answer says "severe". *)
Lemma failure_repeats_last_answer_witness :
  Forall keeps_status
    [ArrivalsSettled (Fulfilled (TFLArrivals [])); Received "GET-TUBE-LINE-STATUS" "again"] /\
  failed (Rejected (AxiosError "timeout")) /\
  exists q,
    answer
      (getTubeLineStatusData_settled (Rejected (AxiosError "timeout"))
         (after
            (turns
               [ArrivalsSettled (Fulfilled (TFLArrivals []));
                Received "GET-TUBE-LINE-STATUS" "again"]
               (after
                  (getTubeLineStatusData_settled
                     (Fulfilled [Some sample_line]) created)))))
    = Some q /\
    LineStatusPayload.tubeStatus q = Some severe.
Proof.
  assert (Forall keeps_status
            [ArrivalsSettled (Fulfilled (TFLArrivals []));
             Received "GET-TUBE-LINE-STATUS" "again"]) as K
      by (repeat constructor).
  assert (failed (Rejected (AxiosError "timeout"))) as F by exact I.
  split; [exact K |]. split; [exact F |].
  destruct (failure_repeats_last_answer (Fulfilled [Some sample_line])
              (Rejected (AxiosError "timeout")) _ created K F)
    as (p & q & A & B & E).
  exists q. split; [exact B |]. rewrite E.
  cbv in A. injection A as <-. reflexivity.
Defined.

(** A request received and settled in the next turn is the method run in
    one go. *)
Lemma received_then_settled (payload : string)
    (arrivals : Settled ArrivalsData)
    (lineStatus : Settled (list (option TFLLine))) (this : NodeHelper) :
  turns [Received "GET-TUBE-STATUS" payload; ArrivalsSettled arrivals] this
  = getTubeStatusData payload arrivals this /\
  turns [Received "GET-TUBE-LINE-STATUS" payload; LineStatusSettled lineStatus]
    this
  = getTubeLineStatusData payload lineStatus this.
Proof.
  split.
  - destruct arrivals; reflexivity.
  - rewrite getTubeLineStatusData_request, turns_cons. cbn [turn].
    set (this1 := after (socketNotificationReceived_call _ payload this)).
    assert (this1
            = {| url := url this; serviceURL := Some payload;
                 result := result this; tubeStatus := tubeStatus this |})
      as -> by reflexivity.
    rewrite turns_cons. cbn [turn turns].
    unfold completion, after, emitted, ret. cbn [fst snd].
    pose proof (turn_normal (LineStatusSettled lineStatus)
                  {| url := url this; serviceURL := Some payload;
                     result := result this; tubeStatus := tubeStatus this |})
      as N. cbn [turn] in N.
    destruct (getTubeLineStatusData_settled lineStatus _)
      as ((c & this2) & out2).
    cbn in N. subst c. cbn. now rewrite app_nil_r.
Qed.

(** ** Errors logged *)

(** X6. The handlers of a line-status request log an error exactly when the
    request fails, once and under the label of the request; a rejection is
    logged with the message of its error, and with the error itself when
    the message is empty.  The handlers of an arrivals request log an error
    exactly when axios rejects. *)
Theorem errors_logged_on_failure_only :
  forall (this : NodeHelper),
    (forall settled,
        (failed settled <->
         exists arg,
           console_errors
             (emitted (getTubeLineStatusData_settled settled this))
           = [("[MMM-TubeTimes] Error fetching tube line status:", arg)]) /\
        (~ failed settled <->
         console_errors (emitted (getTubeLineStatusData_settled settled this))
         = [])) /\
    (forall error,
        console_errors
          (emitted (getTubeLineStatusData_settled (Rejected error) this))
        = [("[MMM-TubeTimes] Error fetching tube line status:",
            if (error_message error =? "")%string
            then LogError error
            else LogString (error_message error))]) /\
    (forall data,
        console_errors (emitted (getTubeStatusData_settled (Fulfilled data) this))
        = []) /\
    (forall error,
        console_errors (emitted (getTubeStatusData_settled (Rejected error) this))
        = [("[MMM-TubeTimes] Error fetching tube status:",
            if (error_message error =? "")%string
            then LogError error
            else LogString (error_message error))]).
Proof.
  intro this.
  assert (forall error,
             message_or_error error
             = if (error_message error =? "")%string
               then LogError error
               else LogString (error_message error)) as M.
  { intro error. unfold message_or_error. simpl.
    now destruct (error_message error =? "")%string. }
  split; [| split; [| split]].
  - intro settled.
    destruct (getTubeLineStatusData_settled_cases settled this)
      as [(F & error & ->) | (F & s & d & ms & ->)].
    + rewrite getTubeLineStatusData_catch_run. cbn. split; split.
      * intros _. eexists. reflexivity.
      * intros _. exact F.
      * intro N. contradiction.
      * discriminate.
    + cbn. split; split.
      * intro N. contradiction.
      * intros (arg & H). discriminate H.
      * reflexivity.
      * intros _. exact F.
  - intro error. cbn. now rewrite M.
  - reflexivity.
  - intro error. cbn. now rewrite M.
Qed.

(** ** The messages of an answer *)

Lemma status_message_complete (status : TFLLineStatus) :
  status_has_message status = true ->
  complete_message (status_message status).
Proof.
  intro H. unfold complete_message, status_message.
  cbn [StandardizedMessage.text StandardizedMessage.category
       StandardizedMessage.categoryDescription].
  rewrite !js_or_empty. split; [| split; eexists; reflexivity].
  apply truthy_spec. cbn [truthy]. rewrite <- truthy_string_of.
  unfold status_has_message in H.
  destruct (truthy (reason status)) eqn:R.
  - now rewrite js_or_truthy.
  - cbn [orb] in H. rewrite (js_or_falsy (reason status)) by exact R.
    destruct (disruption status) as [d |]; [exact H | discriminate H].
Qed.

Lemma disruption_message_complete (d : TFLDisruption) :
  disruption_has_message d = true ->
  complete_message (disruption_message d).
Proof.
  intro H. unfold complete_message, disruption_message.
  cbn [StandardizedMessage.text StandardizedMessage.category
       StandardizedMessage.categoryDescription].
  rewrite !js_or_empty. split; [| split; eexists; reflexivity].
  now apply truthy_spec.
Qed.

Lemma allMessages_complete (lineStatuses : list TFLLineStatus)
    (disruptions : list TFLDisruption) (m : StandardizedMessage.t) :
  In m (allMessages lineStatuses disruptions) -> complete_message m.
Proof.
  unfold allMessages, messagesFromStatuses, messagesFromDisruptions.
  intro H. apply in_app_or in H as [H | H];
    apply in_map_iff in H as (x & <- & H); apply filter_In in H as (_ & H).
  - now apply status_message_complete.
  - now apply disruption_message_complete.
Qed.

Lemma first_occurrences_length (messages : list StandardizedMessage.t) :
  forall earlier,
    (List.length (first_occurrences earlier messages)
     <= List.length messages)%nat.
Proof.
  induction messages as [| m rest IH]; intro earlier; [reflexivity |].
  cbn [first_occurrences]. rewrite length_app. cbn [List.length].
  specialize (IH (earlier ++ [m])).
  destruct (truthy (StandardizedMessage.text m)
            && negb (existsb (fun e => same_text e m) earlier));
    cbn [List.length]; lia.
Qed.

(** X7. In the answer for a line every message is complete: its text is a
    non-empty string and its category and category description are strings
    (empty when the source had none).  No text occurs twice, every text of
    a qualifying status entry or disruption occurs, and there are at most as
    many messages as status entries and disruptions together. *)
Theorem answer_messages_complete :
  forall (payload : string) (line : TFLLine) (rest : list (option TFLLine))
         (this : NodeHelper),
    let statuses := or_empty (lineStatuses line) in
    let events := or_empty (disruptions line) in
    exists p,
      answer (getTubeLineStatusData payload (Fulfilled (Some line :: rest)) this)
      = Some p /\
      (forall m, In m (LineStatusPayload.combinedMessages p) ->
                 complete_message m) /\
      NoDup (map StandardizedMessage.text (LineStatusPayload.combinedMessages p)) /\
      (forall m, In m (allMessages statuses events) ->
                 exists kept,
                   In kept (LineStatusPayload.combinedMessages p) /\
                   StandardizedMessage.text kept = StandardizedMessage.text m) /\
      (List.length (LineStatusPayload.combinedMessages p)
       <= List.length statuses + List.length events)%nat.
Proof.
  intros payload line rest this statuses events.
  rewrite getTubeLineStatusData_line. fold statuses events.
  eexists. split; [reflexivity |]. cbn [LineStatusPayload.combinedMessages].
  rewrite combinedMessages_refines. split; [| split; [| split]].
  - intros m H. apply first_occurrences_In in H as (H & _).
    now apply allMessages_complete in H.
  - apply first_occurrences_NoDup.
  - intros m H.
    assert (truthy (StandardizedMessage.text m) = true) as T.
    { apply truthy_spec. now apply allMessages_complete in H as (T & _). }
    destruct (first_occurrences_covers _ [] m H T) as [(e & [] & _) | K].
    exact K.
  - etransitivity; [apply first_occurrences_length |].
    unfold allMessages, messagesFromStatuses, messagesFromDisruptions.
    rewrite length_app, !length_map.
    pose proof (filter_length_le status_has_message statuses).
    pose proof (filter_length_le disruption_has_message events).
    lia.
Qed.

(** ** Deduplication over a concatenation *)






(** ** Lists that deduplication leaves alone *)

Lemma first_occurrences_id (messages : list StandardizedMessage.t) :
  forall earlier,
    NoDup (map StandardizedMessage.text messages) ->
    Forall (fun m => truthy (StandardizedMessage.text m) = true) messages ->
    (forall m e, In m messages -> In e earlier ->
                 StandardizedMessage.text e <> StandardizedMessage.text m) ->
    first_occurrences earlier messages = messages.
Proof.
  induction messages as [| m rest IH]; intros earlier D T F; [reflexivity |].
  cbn [map] in D. apply NoDup_cons_iff in D as (Dm & D).
  apply Forall_cons_iff in T as (Tm & T).
  cbn [first_occurrences]. rewrite Tm. cbn [andb].
  assert (existsb (fun e => same_text e m) earlier = false) as ->.
  { apply existsb_same_text_false. intros e He. apply F; [now left | exact He]. }
  cbn [negb app]. f_equal. apply IH; [exact D | exact T |].
  intros m' e Hm' He. apply in_app_or in He as [He | [<- | []]].
  - apply F; [now right | exact He].
  - intro E. apply Dm. rewrite E. now apply in_map.
Qed.

(** X9. Deduplication returns a list unchanged exactly when the texts of
    the list are non-empty and pairwise distinct; applied to its own result
    it changes nothing; and it never returns more messages than it is
    given. *)
Theorem combinedMessages_fixed_point :
  forall messages : list StandardizedMessage.t,
    (combinedMessages messages = messages <->
     NoDup (map StandardizedMessage.text messages) /\
     Forall (fun m => truthy (StandardizedMessage.text m) = true) messages) /\
    combinedMessages (combinedMessages messages) = combinedMessages messages /\
    (List.length (combinedMessages messages) <= List.length messages)%nat.
Proof.
  intro messages.
  assert (forall l,
             NoDup (map StandardizedMessage.text l) ->
             Forall (fun m => truthy (StandardizedMessage.text m) = true) l ->
             combinedMessages l = l) as Fix.
  { intros l D T. rewrite combinedMessages_refines.
    apply first_occurrences_id; [exact D | exact T | intros m e _ []]. }
  assert (NoDup (map StandardizedMessage.text (combinedMessages messages)) /\
          Forall (fun m => truthy (StandardizedMessage.text m) = true)
            (combinedMessages messages)) as (D & T).
  { rewrite combinedMessages_refines.
    split; [apply first_occurrences_NoDup |].
    apply Forall_forall. intros m H.
    now apply first_occurrences_In in H as (_ & H & _). }
  split; [| split].
  - split.
    + intro E. rewrite E in D, T. now split.
    + intros (D' & T'). now apply Fix.
  - now apply Fix.
  - rewrite combinedMessages_refines. apply first_occurrences_length.
Qed.

(** ** The status of a line *)

Lemma counted_severities_In (lineStatuses : list TFLLineStatus) (x : Z) :
  In x (filter non_good (map statusSeverity lineStatuses)) <->
  exists status,
    In status lineStatuses /\ statusSeverity status = x /\ non_good x = true.
Proof.
  rewrite filter_In, in_map_iff. split.
  - intros ((status & E & H) & N). now exists status.
  - intros (status & H & E & N). split; [now exists status | exact N].
Qed.

(** [worstSeverity] depends on the severities that count as a set. *)
Lemma worstSeverity_same_severities (l1 l2 : list TFLLineStatus) :
  (forall x,
      In x (filter non_good (map statusSeverity l1)) <->
      In x (filter non_good (map statusSeverity l2))) ->
  worstSeverity l1 = worstSeverity l2.
Proof.
  intro Same.
  destruct (worstSeverity_least l1) as [(E1 & ->) | (In1 & Le1)],
           (worstSeverity_least l2) as [(E2 & ->) | (In2 & Le2)].
  - reflexivity.
  - apply Same in In2. rewrite E1 in In2. destruct In2.
  - apply Same in In1. rewrite E2 in In1. destruct In1.
  - apply Same in In1 as In1'. apply Same in In2 as In2'.
    apply Le1 in In2'. apply Le2 in In1'. lia.
Qed.

(** X10. The status of a line does not depend on the order of its status
    entries: two arrays with the same entries in any order get the same
    status. *)
Theorem worstStatus_order_independent :
  forall l1 l2 : list TFLLineStatus,
    Permutation l1 l2 -> worstStatus l1 = worstStatus l2.
Proof.
  intros l1 l2 P. rewrite !worstStatus_mapStatusSeverity. f_equal.
  apply worstSeverity_same_severities. intro x.
  rewrite !counted_severities_In.
  split; intros (status & H & E); exists status; (split; [| exact E]).
  - now apply (Permutation_in _ P).
  - now apply (Permutation_in _ (Permutation_sym P)).
Qed.

(** The sample statuses, in the order given and reversed, are "severe". *)
Lemma worstStatus_order_independent_witness :
  worstStatus (or_empty (lineStatuses sample_line))
  = worstStatus (rev (or_empty (lineStatuses sample_line))) /\
  worstStatus (rev (or_empty (lineStatuses sample_line))) = severe.
Proof.
  split; [| reflexivity].
  apply worstStatus_order_independent. apply Permutation_rev.
Defined.

Lemma non_good_false (x : Z) : non_good x = false <-> In x [10; 18; 19].
Proof.
  unfold non_good. rewrite negb_false_iff. apply includes_In.
Qed.

(** X11. A line is graded "good" exactly when every one of its status
    entries has severity 10, 18 or 19 (among them: when it has no entry);
    one entry with another severity is enough for "warning" or "severe". *)
Theorem worstStatus_good_iff_all_good :
  forall lineStatuses : list TFLLineStatus,
    worstStatus lineStatuses = good <-> Forall good_severity lineStatuses.
Proof.
  intro l. rewrite worstStatus_mapStatusSeverity, Forall_forall.
  unfold good_severity.
  destruct (worstSeverity_least l) as [(E & ->) | (Hin & _)].
  - split; [| reflexivity]. intros _ status H.
    apply non_good_false.
    destruct (non_good (statusSeverity status)) eqn:N; [| reflexivity].
    assert (In (statusSeverity status)
              (filter non_good (map statusSeverity l))) as C.
    { apply counted_severities_In. now exists status. }
    rewrite E in C. destruct C.
  - apply counted_severities_In in Hin as (status & H & E & N).
    assert (~ In (worstSeverity l) [10; 18; 19]) as G.
    { intro G. apply non_good_false in G. congruence. }
    split.
    + intro M.
      destruct (mapStatusSeverity_classify (worstSeverity l))
        as [(G' & _) | [(_ & S) | (_ & _ & W)]];
        [contradiction | congruence | congruence].
    + intro All. exfalso. apply G. rewrite <- E. now apply All.
Qed.

(** X14. The least severity decides, not the gravest: when an entry has a
    severity that counts and maps to "warning", and every entry whose
    severity maps to "severe" has a greater severity, the line is graded
    "warning" in spite of those entries. *)
Theorem lower_warning_masks_severe :
  forall (lineStatuses : list TFLLineStatus) (status : TFLLineStatus),
    In status lineStatuses ->
    mapStatusSeverity (statusSeverity status) = warning ->
    (forall other,
        In other lineStatuses ->
        mapStatusSeverity (statusSeverity other) = severe ->
        statusSeverity status < statusSeverity other) ->
    worstStatus lineStatuses = warning.
Proof.
  intros l status H W Lt. rewrite worstStatus_mapStatusSeverity.
  assert (non_good (statusSeverity status) = true) as N.
  { destruct (non_good (statusSeverity status)) eqn:N; [reflexivity |].
    apply non_good_false in N.
    destruct (mapStatusSeverity_classify (statusSeverity status))
      as [(_ & G) | [(_ & S) | (G & _)]]; [congruence | congruence |].
    contradiction. }
  assert (In (statusSeverity status) (filter non_good (map statusSeverity l)))
    as C by (apply counted_severities_In; now exists status).
  destruct (worstSeverity_least l) as [(E & _) | (Hin & Le)].
  - rewrite E in C. destruct C.
  - apply Le in C.
    apply counted_severities_In in Hin as (least & Hl & El & Nl).
    destruct (mapStatusSeverity_classify (worstSeverity l))
      as [(G & _) | [(_ & S) | (_ & _ & Wl)]].
    + apply non_good_false in G. congruence.
    + rewrite <- El in S. apply Lt in S; [| exact Hl]. lia.
    + exact Wl.
Qed.

(** Severe delays (6) beside a part closure (5): "warning". *)
Lemma lower_warning_masks_severe_witness :
  mapStatusSeverity 6 = severe /\
  worstStatus [sample_status 6 "Severe Delays" None;
               sample_status 5 "Part Closure" None]
  = warning.
Proof.
  split; [reflexivity |].
  apply (lower_warning_masks_severe _ (sample_status 5 "Part Closure" None)).
  - right. now left.
  - reflexivity.
  - intros other [<- | [<- | []]] S; [reflexivity | discriminate S].
Defined.

(** ** What an answer depends on *)

(** X13. An answer depends on the object only through the URL, and a
    line-status answer to a failure also through the last known status:
    the handlers of an arrivals request send and log the same on two objects
    with the same [url], and those of a line-status request that does not
    fail send the same on two objects with the same [serviceURL], whatever
    statuses and arrivals the objects hold. *)
Theorem answers_depend_on_url_only :
  forall (this1 this2 : NodeHelper),
    (url this1 = url this2 ->
     forall settled,
       emitted (getTubeStatusData_settled settled this1)
       = emitted (getTubeStatusData_settled settled this2)) /\
    (serviceURL this1 = serviceURL this2 ->
     forall settled,
       ~ failed settled ->
       emitted (getTubeLineStatusData_settled settled this1)
       = emitted (getTubeLineStatusData_settled settled this2)) /\
    (serviceURL this1 = serviceURL this2 ->
     tubeStatus this1 = tubeStatus this2 ->
     forall settled,
       emitted (getTubeLineStatusData_settled settled this1)
       = emitted (getTubeLineStatusData_settled settled this2)).
Proof.
  intros this1 this2.
  assert (forall settled,
             serviceURL this1 = serviceURL this2 ->
             (failed settled -> tubeStatus this1 = tubeStatus this2) ->
             emitted (getTubeLineStatusData_settled settled this1)
             = emitted (getTubeLineStatusData_settled settled this2)) as L.
  { intros settled U T.
    unfold getTubeLineStatusData_settled, then_catch.
    destruct settled as [[| [line |] rest] | error].
    - rewrite !getTubeLineStatusData_then_empty. cbn. now rewrite U.
    - rewrite !getTubeLineStatusData_then_line. cbn. now rewrite U.
    - rewrite !getTubeLineStatusData_then_null, !getTubeLineStatusData_catch_run.
      cbn. rewrite U, T; [reflexivity |].
      exists this1. eexists. rewrite getTubeLineStatusData_then_null.
      reflexivity.
    - rewrite !getTubeLineStatusData_catch_run. cbn.
      rewrite U, T; [reflexivity | exact I]. }
  split; [| split].
  - intros U settled. destruct settled; cbn; now rewrite U.
  - intros U settled N. apply L; [exact U | intro F; contradiction].
  - intros U T settled. apply L; [exact U | now intros _].
Qed.

(** The answer for the sample line is the same on a fresh object and on
    one that holds a "warning", once both hold the same serviceURL. *)
Lemma answers_depend_on_url_only_witness :
  emitted (getTubeLineStatusData_settled (Fulfilled [Some sample_line])
             {| url := None; serviceURL := Some "earlier";
                result := Some (TFLArrivals []); tubeStatus := None |})
  = emitted (getTubeLineStatusData_settled (Fulfilled [Some sample_line])
               after_warning).
Proof.
  apply (proj1 (proj2 (answers_depend_on_url_only
                         {| url := None; serviceURL := Some "earlier";
                            result := Some (TFLArrivals []); tubeStatus := None |}
                         after_warning)) eq_refl).
  intros (this0 & error & F).
  rewrite getTubeLineStatusData_then_line in F. discriminate F.
Defined.
